(** * Font atlas generator: layout, glyph placement and output contract

    A shallow embedding of [Metal/generate_font_atlas.py].  Python integers
    are unbounded, so they are modelled by [Z]; [//] and [%] with a positive
    divisor are [Z.div] and [Z.modulo] (both floor).  Pillow, the file system,
    the command line and the interpreter's [int] are collaborators of the
    script: they appear as the fields of a [World] record, and everything the
    script does to them is recorded, in order, in a trace of effects. *)

From Stdlib Require Import Ascii.
From Equations Require Import Equations.
From stdpp Require Import list list_numbers strings pretty gmap.
Local Open Scope Z_scope.

(** ** Python builtins *)

(** Exceptions the script can meet.  [PillowError] stands for whatever the
    imaging library raises. *)
Inductive exn : Type :=
| ValueError
| OverflowError
| IndexError
| OSError
| PillowError.

Inductive outcome (A : Type) : Type :=
| Returns (a : A)
| Raises (e : exn).
Arguments Returns {A} a.
Arguments Raises {A} e.

(** [range(a, b)] *)
Definition range (a b : Z) : list Z := seqZ a (b - a).

(** [chr(i)]: a character is kept as its code point.  Outside
    [range(0x110000)] CPython raises [ValueError] when the argument fits a C
    [int], and [OverflowError] when it does not. *)
Definition chr (i : Z) : outcome Z :=
  if decide (0 ≤ i < 0x110000) then Returns i
  else if decide (- 2 ^ 31 ≤ i < 2 ^ 31) then Raises ValueError
  else Raises OverflowError.

(** [l[i]] for a non-negative index. *)
Definition getitem {A} (l : list A) (i : nat) : outcome A :=
  match l !! i with
  | Some x => Returns x
  | None => Raises IndexError
  end.

(** [s.startswith(p)] *)
Fixpoint startswith (p s : string) : bool :=
  match p, s with
  | EmptyString, _ => true
  | String a p', String b s' => if decide (a = b) then startswith p' s' else false
  | String _ _, EmptyString => false
  end.

(** [s.replace(old, new)] for a non-empty [old]: every non-overlapping
    occurrence, scanning from the left.  [skip] counts the characters of an
    occurrence just replaced that are still to be dropped. *)
Fixpoint replace_from (old new : string) (skip : nat) (s : string) : string :=
  match s with
  | EmptyString => EmptyString
  | String c s' =>
      match skip with
      | S k => replace_from old new k s'
      | O =>
          if startswith old s
          then new +:+ replace_from old new (Nat.pred (String.length old)) s'
          else String c (replace_from old new 0 s')
      end
  end.

Definition str_replace (old new s : string) : string := replace_from old new 0 s.

(** [os.path.basename(p)] on a POSIX path: what follows the last slash. *)
Fixpoint basename_from (acc : string) (p : string) : string :=
  match p with
  | EmptyString => acc
  | String c p' =>
      if decide (c = "/"%char) then basename_from p' p' else basename_from acc p'
  end.

Definition basename (p : string) : string := basename_from p p.

(** [os.path.join(a, b)] on POSIX paths. *)
Definition ends_with_slash (a : string) : bool :=
  match String.rev a with
  | String c _ => bool_decide (c = "/"%char)
  | EmptyString => false
  end.

Definition path_join (a b : string) : string :=
  if startswith "/" b then b
  else if bool_decide (a = "") || ends_with_slash a then a +:+ b
  else a +:+ "/" +:+ b.

(** ** The planner: code points and grid geometry *)

(** The arguments of [generate_font_atlas]; [font_size = None] is Python's
    [None]. *)
Record config : Type := Config {
  font_path : string;
  output_path : string;
  cell_width : Z;
  cell_height : Z;
  font_size : option Z;
  first_char : Z;
  last_char : Z;
  include_box_drawing : bool;
  padding : Z
}.

(** The loop [for i in range(first_char, last_char + 1)] followed by the
    optional loop over [range(0x2500, 0x2580)]. *)
Definition char_list (c : config) : list Z :=
  range (first_char c) (last_char c + 1)
  ++ (if include_box_drawing c then range 0x2500 0x2580 else []).

Definition glyphs_per_row : Z := 16.

(** [power = 1; while power < n: power *= 2; return power].  [power]
    starts at 1 and is only ever doubled, so it ranges over the positive
    integers; the distance to [n] shrinks at every turn of the loop. *)
Equations? next_power_of_2_loop (power : positive) (n : Z) : positive
  by wf (Z.to_nat (n - Z.pos power)) lt :=
  next_power_of_2_loop power n with decide (Z.pos power < n) := {
    | left _ => next_power_of_2_loop (power * 2) n
    | right _ => power }.
Proof. lia. Qed.

Definition next_power_of_2 (n : Z) : Z := Z.pos (next_power_of_2_loop 1 n).

Definition char_count (c : config) : Z := Z.of_nat (length (char_list c)).

Definition rows (c : config) : Z :=
  (char_count c + glyphs_per_row - 1) `div` glyphs_per_row.

Definition padded_cell_width (c : config) : Z := cell_width c + padding c * 2.
Definition padded_cell_height (c : config) : Z := cell_height c + padding c * 2.

Definition atlas_width (c : config) : Z :=
  next_power_of_2 (glyphs_per_row * padded_cell_width c).
Definition atlas_height (c : config) : Z :=
  next_power_of_2 (rows c * padded_cell_height c).

(** ** Collaborators: Pillow, the file system, standard output *)

(** A call of [draw.rectangle([x0, y0, x1, y1], fill=...)] or of
    [draw.text((x, y), char, font=font, fill=...)]. *)
Inductive draw_cmd : Type :=
| Rectangle (x0 y0 x1 y1 fill : Z)
| Text (x y char fill : Z).

(** An [Image] of mode "L": its size, the value every pixel starts with, and
    the drawing calls that succeeded on it, oldest first. *)
Record image : Type := Image {
  img_width : Z;
  img_height : Z;
  background : Z;
  painted : list draw_cmd
}.

(** [Image.new("L", (w, h), color=0)] *)
Definition new_image (w h : Z) : image :=
  {| img_width := w; img_height := h; background := 0; painted := [] |}.

(** A drawing call that returns; one that raises leaves the image alone. *)
Definition paint (im : image) (cmd : draw_cmd) : image :=
  {| img_width := img_width im; img_height := img_height im;
     background := background im; painted := painted im ++ [cmd] |}.

(** The pixels [draw.rectangle([x0, y0, x1, y1])] fills: Pillow's box
    includes both of its corners. *)
Definition rectangle_covers (x0 y0 x1 y1 x y : Z) : Prop :=
  x0 ≤ x ≤ x1 ∧ y0 ≤ y ≤ y1.

(** A loaded font: [getmetrics()], [getbbox(char)] (left, top, right,
    bottom) and whether rendering [char] at [(x, y)] raises. *)
Record Font : Type := {
  getmetrics : Z * Z;
  getbbox : Z → outcome (Z * Z * Z * Z);
  text_error : Z → Z → Z → option exn
}.

Record World : Type := {
  int : string → option Z;                      (* int(s) on a str; None: ValueError *)
  script_dir : string;                          (* dirname(abspath(__file__)) *)
  path_exists : string → bool;                  (* os.path.exists *)
  truetype : string → Z → outcome Font;         (* ImageFont.truetype *)
  rectangle_error : Z → Z → Z → Z → option exn; (* draw.rectangle raising *)
  save_error : string → image → option exn;     (* atlas.save raising *)
  open_error : string → option exn              (* open(path, "w") raising *)
}.

(** What [print] is given, one constructor per message of the script. *)
Inductive message : Type :=
| LoadingFont (path : string)
| CellSize (w h : Z)
| FontSize (size : Z)
| ErrorLoadingFont (e : exn)
| FontMetrics (ascent descent baseline : Z)
| IncludingBoxDrawing (n : Z)
| AtlasSize (w h : Z)
| Rendering (n : Z)
| CouldNotRender (char_code : Z) (e : exn)
| SavingAtlas (path : string)
| MetadataSaved (path : string)
| Done
| FontNotFound (path : string)
| Usage (prog : string).

Inductive effect : Type :=
| Print (m : message)
| SaveImage (path : string) (im : image)
| WriteText (path : string) (text : string).

(** A computation of the script: the effects it performed, in order, and
    how it ended. *)
Definition M (A : Type) : Type := list effect * outcome A.

Definition ret {A} (a : A) : M A := ([], Returns a).

Definition bind {A B} (m : M A) (k : A → M B) : M B :=
  match m with
  | (t, Returns a) => let '(t', r) := k a in (t ++ t', r)
  | (t, Raises e) => (t, Raises e)
  end.

Declare Scope script_scope.
Delimit Scope script_scope with script.
Notation "x <- m ; k" := (bind m (fun x => k))
  (at level 100, m at next level, right associativity) : script_scope.
Notation "m ;; k" := (bind m (fun _ => k))
  (at level 100, right associativity) : script_scope.
Local Open Scope script_scope.

Definition lift {A} (o : outcome A) : M A := ([], o).
Definition emit (e : effect) : M unit := ([e], Returns tt).
Definition print (m : message) : M unit := emit (Print m).

(** A call that either raises or returns nothing. *)
Definition check (o : option exn) : outcome unit :=
  match o with
  | Some e => Raises e
  | None => Returns tt
  end.

(** ** The glyph placer *)

Definition underscore : Z := 95.

Section Placement.
Variable w : World.
Variable font : Font.
Variable c : config.

Definition ascent : Z := fst (getmetrics font).
Definition descent : Z := snd (getmetrics font).

Definition vertical_padding : Z :=
  (cell_height c - (ascent + descent)) `div` 2.

Definition row (i : nat) : Z := Z.of_nat i `div` glyphs_per_row.
Definition col (i : nat) : Z := Z.of_nat i `mod` glyphs_per_row.

Definition padded_cell_x (i : nat) : Z := col i * padded_cell_width c.
Definition padded_cell_y (i : nat) : Z := row i * padded_cell_height c.

Definition cell_x (i : nat) : Z := padded_cell_x i + padding c.
Definition cell_y (i : nat) : Z := padded_cell_y i + padding c.

(** The body of the [try]: the drawing call made for [char] in the cell
    of index [i], when every step of it returns. *)
Definition draw_char (i : nat) (char : Z) : outcome draw_cmd :=
  if decide (char = underscore) then
    let underscore_height := 2 in
    let underscore_y := cell_y i + vertical_padding + ascent + 1 - 2 in
    let x1 := cell_x i + cell_width c - 1 in
    let y1 := underscore_y + underscore_height - 1 in
    match rectangle_error w (cell_x i) underscore_y x1 y1 with
    | Some e => Raises e
    | None => Returns (Rectangle (cell_x i) underscore_y x1 y1 255)
    end
  else
    match getbbox font char with
    | Raises e => Raises e
    | Returns (bbox0, _, bbox2, _) =>
        let char_width := bbox2 - bbox0 in
        let offset_x := (cell_width c - char_width) `div` 2 in
        let text_y := cell_y i + vertical_padding - 2 in
        match text_error font (cell_x i + offset_x) text_y char with
        | Some e => Raises e
        | None => Returns (Text (cell_x i + offset_x) text_y char 255)
        end
    end.

(** One turn of [for i in range(char_count)]. *)
Definition render_glyph (atlas : image) (i : nat) : M image :=
  char_code <- lift (getitem (char_list c) i);
  char <- lift (chr char_code);
  match draw_char i char with
  | Returns cmd => ret (paint atlas cmd)
  | Raises e => print (CouldNotRender char_code e);; ret atlas
  end.

Fixpoint render_loop (atlas : image) (indices : list nat) : M image :=
  match indices with
  | [] => ret atlas
  | i :: rest => atlas' <- render_glyph atlas i; render_loop atlas' rest
  end.
End Placement.

(** ** The metadata emitter *)

Definition nl : string := String "010" "".

Definition header_path (c : config) : string :=
  str_replace ".png" "_metadata.h" (output_path c).

Definition define (name : string) (value : Z) : string :=
  "#define " +:+ name +:+ " " +:+ pretty value +:+ nl.

Definition header_text (c : config) : string :=
  "// Auto-generated font atlas metadata" +:+ nl +:+
  "// Generated from: " +:+ basename (font_path c) +:+ nl +:+
  nl +:+
  "#ifndef FONT_ATLAS_METADATA_H" +:+ nl +:+
  "#define FONT_ATLAS_METADATA_H" +:+ nl +:+
  nl +:+
  define "FONT_ATLAS_WIDTH" (atlas_width c) +:+
  define "FONT_ATLAS_HEIGHT" (atlas_height c) +:+
  define "FONT_GLYPH_WIDTH" (cell_width c) +:+
  define "FONT_GLYPH_HEIGHT" (cell_height c) +:+
  define "FONT_ATLAS_PADDING" (padding c) +:+
  define "FONT_PADDED_CELL_WIDTH" (padded_cell_width c) +:+
  define "FONT_PADDED_CELL_HEIGHT" (padded_cell_height c) +:+
  define "FONT_FIRST_CHAR" (first_char c) +:+
  define "FONT_LAST_CHAR" (last_char c) +:+
  define "FONT_GLYPHS_PER_ROW" glyphs_per_row +:+
  define "FONT_CHAR_COUNT" (char_count c) +:+
  define "FONT_INCLUDES_BOX_DRAWING" (if include_box_drawing c then 1 else 0) +:+
  nl +:+
  "// Character map: maps Unicode codepoint to atlas index" +:+ nl +:+
  "// First " +:+ pretty (last_char c - first_char c + 1) +:+
  " entries are ASCII " +:+ pretty (first_char c) +:+ "-" +:+
  pretty (last_char c) +:+ nl +:+
  "// Remaining entries are box drawing U+2500-U+257F" +:+ nl +:+
  "// Note: Atlas uses padded cells (" +:+ pretty (padded_cell_width c) +:+
  "x" +:+ pretty (padded_cell_height c) +:+ ") with " +:+
  pretty (padding c) +:+ "px padding" +:+ nl +:+
  nl +:+
  "#endif // FONT_ATLAS_METADATA_H" +:+ nl.

(** ** [generate_font_atlas] *)

Definition actual_font_size (c : config) : Z :=
  match font_size c with
  | Some size => size
  | None => cell_height c
  end.

(** From the font metrics to [return True]: everything after the font has
    been loaded. *)
Definition render_and_save (w : World) (font : Font) (c : config) : M bool :=
  print (FontMetrics (ascent font) (descent font) (ascent font));;
  (if include_box_drawing c
   then print (IncludingBoxDrawing (0x2580 - 0x2500)) else ret tt);;
  print (AtlasSize (atlas_width c) (atlas_height c));;
  print (Rendering (char_count c));;
  atlas <- render_loop w font c (new_image (atlas_width c) (atlas_height c))
             (seq 0 (length (char_list c)));
  print (SavingAtlas (output_path c));;
  lift (check (save_error w (output_path c) atlas));;
  emit (SaveImage (output_path c) atlas);;
  lift (check (open_error w (header_path c)));;
  emit (WriteText (header_path c) (header_text c));;
  print (MetadataSaved (header_path c));;
  print Done;;
  ret true.

Definition generate_font_atlas (w : World) (c : config) : M bool :=
  print (LoadingFont (font_path c));;
  print (CellSize (cell_width c) (cell_height c));;
  print (FontSize (actual_font_size c));;
  match truetype w (font_path c) (actual_font_size c) with
  | Raises e => print (ErrorLoadingFont e);; ret false
  | Returns font => render_and_save w font c
  end.

(** ** [main] *)

(** [sys.argv]: the script's own name, then the arguments. *)
Record argv : Type := Argv {
  prog : string;
  args : list string
}.

(** [int(s)] on a string: what it accepts (signs, underscores, Unicode
    digits and white space, the limit on the number of digits) is the
    interpreter's business; it returns an integer or raises [ValueError]. *)
Definition int_of_str (w : World) (s : string) : outcome Z :=
  match int w s with
  | Some z => Returns z
  | None => Raises ValueError
  end.

(** [int(sys.argv[k + 1]) if len(sys.argv) > k + 1 else default] *)
Definition int_arg {A} (w : World) (a : argv) (k : nat) (some : Z → A) (default : A) :
    M A :=
  match args a !! k with
  | Some s => z <- lift (int_of_str w s); ret (some z)
  | None => ret default
  end.

Definition default_first_char : Z := 32.
Definition default_last_char : Z := 126.

(** The first part of [main]: the arguments it will call
    [generate_font_atlas] with.  [first_char] and [last_char] are left to
    their defaults and [include_box_drawing] is the literal [True]. *)
Definition call_arguments (w : World) (a : argv) : M config :=
  let font_path :=
    default (path_join (script_dir w) "../../Assets/font/petme/PetMe128.ttf")
            (args a !! 0%nat) in
  let output_path :=
    default (path_join (script_dir w) "font_atlas.png") (args a !! 1%nat) in
  cell_width <- int_arg w a 2 id 16;
  cell_height <- int_arg w a 3 id cell_width;
  font_size <- int_arg w a 4 Some None;
  padding <- int_arg w a 5 id 1;
  ret {| font_path := font_path; output_path := output_path;
         cell_width := cell_width; cell_height := cell_height;
         font_size := font_size;
         first_char := default_first_char; last_char := default_last_char;
         include_box_drawing := true; padding := padding |}.

Definition main (w : World) (a : argv) : M Z :=
  c <- call_arguments w a;
  if path_exists w (font_path c) then
    success <- generate_font_atlas w c;
    ret (if success : bool then 0 else 1)
  else
    print (FontNotFound (font_path c));;
    print (Usage (prog a));;
    ret 1.

(** [sys.exit(main())]: the exit status of the process.  An exception that
    nothing catches ends the interpreter with status 1. *)
Definition exit_code (m : M Z) : Z :=
  match snd m with
  | Returns code => code
  | Raises _ => 1
  end.

(** The files a trace leaves behind, over the files that were there. *)
Inductive file : Type :=
| ImageFile (im : image)
| TextFile (text : string).

Definition write (fs : gmap string file) (e : effect) : gmap string file :=
  match e with
  | Print _ => fs
  | SaveImage path im => <[path := ImageFile im]> fs
  | WriteText path text => <[path := TextFile text]> fs
  end.

Definition files_after (fs : gmap string file) (t : list effect) : gmap string file :=
  foldl write fs t.

(** ** A fake interpreter, rasterizer and file system *)

(** The fake interpreter's [int]: optional surrounding white space, an
    optional sign, then ASCII decimal digits that may be separated by single
    underscores; anything else is refused. *)
Definition is_space (c : ascii) : bool :=
  let n := nat_of_ascii c in
  ((9 <=? n)%nat && (n <=? 13)%nat) || (n =? 32)%nat.

Definition is_digit (c : ascii) : bool :=
  let n := nat_of_ascii c in (48 <=? n)%nat && (n <=? 57)%nat.

Definition digit_value (c : ascii) : Z := Z.of_nat (nat_of_ascii c) - 48.

Fixpoint lstrip (s : list ascii) : list ascii :=
  match s with
  | c :: s' => if is_space c then lstrip s' else s
  | [] => []
  end.

Definition strip (s : list ascii) : list ascii :=
  reverse (lstrip (reverse (lstrip s))).

Fixpoint digits (acc : Z) (after_digit : bool) (s : list ascii) : option Z :=
  match s with
  | [] => if after_digit then Some acc else None
  | c :: s' =>
      if is_digit c then digits (acc * 10 + digit_value c) true s'
      else if bool_decide (c = "_"%char) && after_digit then digits acc false s'
      else None
  end.

Definition ascii_int (s : string) : option Z :=
  match strip (String.list_ascii_of_string s) with
  | "-"%char :: ds => Z.opp <$> digits 0 false ds
  | "+"%char :: ds => digits 0 false ds
  | ds => digits 0 false ds
  end.

(** A font whose glyphs are all 11 pixels wide, with one glyph (U+2500)
    that cannot be rasterized, and a Pillow that refuses a rectangle whose
    corners are out of order. *)
Definition fake_font : Font :=
  {| getmetrics := (14, 4);
     getbbox := λ char,
       if decide (char = 0x2500) then Raises PillowError else Returns (1, 0, 12, 16);
     text_error := λ _ _ _, None |}.

Definition fake_world : World :=
  {| int := ascii_int;
     script_dir := "/opt/tool";
     path_exists := λ p, bool_decide (p = "font.ttf");
     truetype := λ p size,
       if decide (p = "font.ttf" ∧ 0 < size) then Returns fake_font else Raises OSError;
     rectangle_error := λ x0 y0 x1 y1,
       if decide (x1 < x0 ∨ y1 < y0) then Some ValueError else None;
     save_error := λ _ _, None;
     open_error := λ _, None |}.

Definition default_config : config :=
  {| font_path := "font.ttf"; output_path := "font_atlas.png";
     cell_width := 16; cell_height := 16; font_size := None;
     first_char := 32; last_char := 126; include_box_drawing := true;
     padding := 1 |}.

(** ** Vocabulary of the properties *)

Definition power_of_two (z : Z) : Prop := ∃ k : nat, z = 2 ^ Z.of_nat k.

Definition smallest_power_of_two_from (n r : Z) : Prop :=
  power_of_two r ∧ n ≤ r ∧ ∀ p, power_of_two p → n ≤ p → r ≤ p.

Definition ascii_count (c : config) : nat :=
  Z.to_nat (last_char c + 1 - first_char c).

Definition is_print (e : effect) : Prop :=
  match e with
  | Print _ => True
  | _ => False
  end.

Definition valid_code (code : Z) : Prop := 0 ≤ code < 0x110000.

(** What one turn of the loop leaves in the atlas, and what it prints. *)
Definition drawn (w : World) (font : Font) (c : config) (i : nat) : option draw_cmd :=
  code ← char_list c !! i;
  match draw_char w font c i code with
  | Returns cmd => Some cmd
  | Raises _ => None
  end.

Definition warned (w : World) (font : Font) (c : config) (i : nat) : list effect :=
  match char_list c !! i with
  | Some code =>
      match draw_char w font c i code with
      | Returns _ => []
      | Raises e => [Print (CouldNotRender code e)]
      end
  | None => []
  end.

Definition paint_all (atlas : image) (cmds : list draw_cmd) : image :=
  foldl paint atlas cmds.

(** The atlas a run saves: the drawing calls that returned, in index order,
    over the blank image. *)
Definition rendered_atlas (w : World) (font : Font) (c : config) : image :=
  paint_all (new_image (atlas_width c) (atlas_height c))
            (omap (drawn w font c) (seq 0 (length (char_list c)))).

Definition fonts_agree_at (f f' : Font) (code : Z) : Prop :=
  getbbox f code = getbbox f' code
  ∧ ∀ x y, text_error f x y code = text_error f' x y code.

Definition zero_width_config : config :=
  {| font_path := "font.ttf"; output_path := "font_atlas.png";
     cell_width := 0; cell_height := 16; font_size := None;
     first_char := 32; last_char := 126; include_box_drawing := true;
     padding := 1 |}.

Definition negative_height_config : config :=
  {| font_path := "font.ttf"; output_path := "font_atlas.png";
     cell_width := 16; cell_height := -4; font_size := Some 12;
     first_char := 32; last_char := 126; include_box_drawing := true;
     padding := 1 |}.

(** [old in s] *)
Fixpoint occurs (old s : string) : bool :=
  startswith old s ||
  match s with
  | EmptyString => false
  | String _ s' => occurs old s'
  end.

Definition bmp_config : config :=
  {| font_path := "font.ttf"; output_path := "font_atlas.bmp";
     cell_width := 16; cell_height := 16; font_size := None;
     first_char := 32; last_char := 126; include_box_drawing := true;
     padding := 1 |}.

(** Every way [render_and_save] can go, by what the loop, [atlas.save] and
    [open] do. *)
(** What a run prints between loading the font and the render pass. *)
Definition announced (font : Font) (c : config) : list effect :=
  [Print (FontMetrics (ascent font) (descent font) (ascent font))]
  ++ (if include_box_drawing c then [Print (IncludingBoxDrawing 128)] else [])
  ++ [Print (AtlasSize (atlas_width c) (atlas_height c));
      Print (Rendering (char_count c))].

(** A range that starts below zero. *)
Definition negative_first_config : config :=
  {| font_path := "font.ttf"; output_path := "font_atlas.png";
     cell_width := 16; cell_height := 16; font_size := None;
     first_char := -1; last_char := 126; include_box_drawing := true;
     padding := 1 |}.

(** The fake world on a disk that takes no file, and on one that takes the
    atlas but no header. *)
Definition read_only_world : World :=
  {| int := int fake_world;
     script_dir := script_dir fake_world;
     path_exists := path_exists fake_world;
     truetype := truetype fake_world;
     rectangle_error := rectangle_error fake_world;
     save_error := λ _ _, Some OSError;
     open_error := λ _, Some OSError |}.

Definition no_header_world : World :=
  {| int := int fake_world;
     script_dir := script_dir fake_world;
     path_exists := path_exists fake_world;
     truetype := truetype fake_world;
     rectangle_error := rectangle_error fake_world;
     save_error := λ _ _, None;
     open_error := λ _, Some OSError |}.

(** Whether an effect is the warning of the [except] branch. *)
Definition could_not_render (e : effect) : bool :=
  match e with
  | Print (CouldNotRender _ _) => true
  | _ => false
  end.

(** Pillow's rasterizer, as far as the atlas shows it: whether a drawing
    call that returned changed the pixel [(x, y)].  A pixel of the atlas
    differs from the background when some call the atlas holds changed
    it. *)
Definition Ink : Type := draw_cmd → Z → Z → bool.

Definition inked (ink : Ink) (im : image) (x y : Z) : bool :=
  existsb (λ cmd, ink cmd x y) (painted im).

(** The padded cell of index [i], as a set of pixels. *)
Definition in_cell (c : config) (i : nat) (x y : Z) : Prop :=
  padded_cell_x c i ≤ x < padded_cell_x c i + padded_cell_width c
  ∧ padded_cell_y c i ≤ y < padded_cell_y c i + padded_cell_height c.

(** Every call of the run changes pixels of its own padded cell only. *)
Definition confined (ink : Ink) (w : World) (font : Font) (c : config) : Prop :=
  ∀ j cmd x y, drawn w font c j = Some cmd → ink cmd x y = true → in_cell c j x y.

(** A rasterizer whose rectangles include both corners and whose glyphs
    fill the bounding box the font reports, placed at the draw origin. *)
Definition solid_ink (font : Font) : Ink := λ cmd x y,
  match cmd with
  | Rectangle x0 y0 x1 y1 _ => bool_decide (x0 ≤ x ≤ x1 ∧ y0 ≤ y ≤ y1)
  | Text x0 y0 char _ =>
      match getbbox font char with
      | Returns (bbox0, bbox1, bbox2, bbox3) =>
          bool_decide (x0 + bbox0 ≤ x < x0 + bbox2 ∧ y0 + bbox1 ≤ y < y0 + bbox3)
      | Raises _ => false
      end
  end.

(** Cells four pixels wide, for glyphs eleven pixels wide. *)
Definition narrow_config : config :=
  {| font_path := "font.ttf"; output_path := "font_atlas.png";
     cell_width := 4; cell_height := 16; font_size := None;
     first_char := 32; last_char := 126; include_box_drawing := true;
     padding := 1 |}.

(** Cells tall enough for the fake font. *)
Definition tall_config : config :=
  {| font_path := "font.ttf"; output_path := "font_atlas.png";
     cell_width := 16; cell_height := 24; font_size := Some 16;
     first_char := 32; last_char := 126; include_box_drawing := true;
     padding := 1 |}.

(** * Properties *)

(** ** Power-of-two rounding *)

Lemma next_power_of_2_loop_spec power n :
  (∃ k : nat, Z.pos (next_power_of_2_loop power n) = Z.pos power * 2 ^ Z.of_nat k)
  ∧ n ≤ Z.pos (next_power_of_2_loop power n)
  ∧ (next_power_of_2_loop power n = power
     ∨ Z.pos (next_power_of_2_loop power n) < 2 * n).
Proof.
  apply (next_power_of_2_loop_elim
    (λ power n r, (∃ k : nat, Z.pos r = Z.pos power * 2 ^ Z.of_nat k)
                  ∧ n ≤ Z.pos r ∧ (r = power ∨ Z.pos r < 2 * n))).
  - clear. intros power n Hlt [[k Hk] [Hge Hmin]] _.
    split; [|split; [done|]].
    + exists (S k). rewrite Hk, Nat2Z.inj_succ, Z.pow_succ_r by lia. lia.
    + right. destruct Hmin as [-> | ?]; lia.
  - clear. intros power n Hge _.
    split; [exists 0%nat; simpl; lia | split; [lia | by left]].
Qed.

Lemma next_power_of_2_smallest n : smallest_power_of_two_from n (next_power_of_2 n).
Proof.
  unfold next_power_of_2.
  destruct (next_power_of_2_loop_spec 1 n) as [[k Hk] [Hge Hmin]].
  split; [exists k; lia | split; [done |]].
  intros p [j ->] Hp. rewrite Hk, Z.mul_1_l.
  destruct Hmin as [Hone | Hlt].
  - rewrite Hone in Hk.
    assert (0 < 2 ^ Z.of_nat j) by (apply Z.pow_pos_nonneg; lia). lia.
  - apply Z.pow_le_mono_r; [lia |].
    destruct (decide (k ≤ j)%nat) as [|Hkj]; [lia | exfalso].
    assert (2 * 2 ^ Z.of_nat j ≤ 2 ^ Z.of_nat k).
    { rewrite <- Z.pow_succ_r by lia. apply Z.pow_le_mono_r; lia. }
    lia.
Qed.

Lemma next_power_of_2_small n : n ≤ 1 → next_power_of_2 n = 1.
Proof.
  intros Hn. unfold next_power_of_2. simp next_power_of_2_loop.
  destruct (decide (1 < n)); [lia | done].
Qed.

(** ** The code point sequence *)

Lemma length_char_list c :
  length (char_list c)
  = (ascii_count c + if include_box_drawing c then 128 else 0)%nat.
Proof.
  unfold char_list, range, ascii_count. rewrite length_app, length_seqZ.
  destruct (include_box_drawing c); [by rewrite length_seqZ | done].
Qed.

Lemma char_list_ascii c i :
  (i < ascii_count c)%nat → char_list c !! i = Some (first_char c + Z.of_nat i).
Proof.
  unfold char_list, range, ascii_count. intros Hi.
  rewrite lookup_app_l by (rewrite length_seqZ; lia).
  apply lookup_seqZ_lt. lia.
Qed.

Lemma char_list_box c j :
  include_box_drawing c = true → (j < 128)%nat →
  char_list c !! (ascii_count c + j)%nat = Some (0x2500 + Z.of_nat j).
Proof.
  unfold char_list, range, ascii_count. intros -> Hj.
  rewrite lookup_app_r by (rewrite length_seqZ; lia).
  rewrite length_seqZ.
  replace (_ + j - _)%nat with j by lia.
  apply lookup_seqZ_lt. lia.
Qed.

Lemma char_list_elem c code :
  code ∈ char_list c ↔
  first_char c ≤ code ≤ last_char c
  ∨ (include_box_drawing c = true ∧ 0x2500 ≤ code ≤ 0x257F).
Proof.
  unfold char_list, range. rewrite elem_of_app, elem_of_seqZ.
  destruct (include_box_drawing c).
  - rewrite elem_of_seqZ. intuition lia.
  - rewrite elem_of_nil. intuition (lia || congruence).
Qed.

(** ** Running the script: effects and results *)

Lemma bind_returns {A B} (m : M A) (k : A → M B) t b :
  bind m k = (t, Returns b) →
  ∃ t1 a t2, m = (t1, Returns a) ∧ k a = (t2, Returns b) ∧ t = t1 ++ t2.
Proof.
  destruct m as [t1 [a | x]]; simpl; [| done].
  destruct (k a) as [t2 r] eqn:Hk. intros [= <- ->]. by exists t1, a, t2.
Qed.

Lemma render_glyph_frame w font c atlas i t atlas' :
  render_glyph w font c atlas i = (t, Returns atlas') →
  Forall is_print t
  ∧ img_width atlas' = img_width atlas
  ∧ img_height atlas' = img_height atlas
  ∧ background atlas' = background atlas.
Proof.
  unfold render_glyph, getitem, lift.
  destruct (char_list c !! i) as [code |]; simpl; [| done].
  destruct (chr code) as [char |]; simpl; [| done].
  destruct (draw_char w font c i char); simpl; intros [= <- <-]; simpl.
  - done.
  - split; [repeat constructor | done].
Qed.

Lemma render_loop_frame w font c indices : ∀ atlas t atlas',
  render_loop w font c atlas indices = (t, Returns atlas') →
  Forall is_print t
  ∧ img_width atlas' = img_width atlas
  ∧ img_height atlas' = img_height atlas
  ∧ background atlas' = background atlas.
Proof.
  induction indices as [| i rest IH]; simpl; intros atlas t atlas'.
  - intros [= <- <-]. done.
  - intros (t1 & mid & t2 & Hglyph & Hrest & ->)%bind_returns.
    apply render_glyph_frame in Hglyph as (Hp1 & Hw1 & Hh1 & Hb1).
    apply IH in Hrest as (Hp2 & Hw2 & Hh2 & Hb2).
    split; [by apply Forall_app |]. split_and!; congruence.
Qed.

(** The loop only prints: whatever it draws goes to the atlas it returns. *)
Lemma render_glyph_prints w font c atlas i :
  Forall is_print (render_glyph w font c atlas i).1.
Proof.
  unfold render_glyph, getitem, lift.
  destruct (char_list c !! i) as [code |]; simpl; [| done].
  destruct (chr code) as [char |]; simpl; [| done].
  destruct (draw_char w font c i char); simpl; repeat constructor.
Qed.

Lemma render_loop_prints w font c indices : ∀ atlas,
  Forall is_print (render_loop w font c atlas indices).1.
Proof.
  induction indices as [| i rest IH]; simpl; intros atlas; [done |].
  pose proof (render_glyph_prints w font c atlas i) as Hg.
  destruct (render_glyph w font c atlas i) as [t1 [mid | x]]; simpl in *; [| done].
  specialize (IH mid). destruct (render_loop w font c mid rest) as [t2 r]; simpl in *.
  by apply Forall_app.
Qed.

(** Every file the generator writes: the atlas at [output_path], with the
    planned size and a zero background, and the header at [header_path]. *)
Lemma generate_font_atlas_writes w c e :
  e ∈ (generate_font_atlas w c).1 →
  is_print e
  ∨ (∃ im, e = SaveImage (output_path c) im
           ∧ img_width im = atlas_width c ∧ img_height im = atlas_height c
           ∧ background im = 0)
  ∨ e = WriteText (header_path c) (header_text c).
Proof.
  unfold generate_font_atlas.
  destruct (truetype w (font_path c) (actual_font_size c)) as [font | x].
  2: { simpl. rewrite !elem_of_cons, elem_of_nil.
       intros [-> | [-> | [-> | [-> | []]]]]; by left. }
  unfold render_and_save.
  pose proof (render_loop_prints w font c (seq 0 (length (char_list c)))
                (new_image (atlas_width c) (atlas_height c))) as Hprints.
  pose proof (render_loop_frame w font c (seq 0 (length (char_list c)))
                (new_image (atlas_width c) (atlas_height c))) as Hframe.
  destruct (render_loop _ _ _ _ _) as [t r].
  destruct r as [atlas | x].
  - destruct (Hframe _ _ eq_refl) as (_ & Hw & Hh & Hb). clear Hframe.
    simpl in Hprints, Hw, Hh, Hb. rewrite Forall_forall in Hprints.
    intros He.
    assert (e ∈ t ∨ is_print e ∨ e = SaveImage (output_path c) atlas
            ∨ e = WriteText (header_path c) (header_text c)) as Hcases.
    { revert He.
      destruct (include_box_drawing c); simpl;
        destruct (save_error w (output_path c) atlas); simpl;
        destruct (open_error w (header_path c)); simpl;
        rewrite ?elem_of_cons, ?elem_of_app, ?elem_of_cons, ?elem_of_nil;
        intuition (subst; simpl; auto). }
    destruct Hcases as [?|[?|[->| ->]]]; eauto 10.
  - clear Hframe. simpl in Hprints. rewrite Forall_forall in Hprints.
    destruct (include_box_drawing c); simpl;
      rewrite ?elem_of_cons, ?elem_of_app, ?elem_of_nil;
      intuition (subst; simpl; auto).
Qed.

(** ** C1: atlas dimensions *)

Lemma rows_ceiling c :
  glyphs_per_row * (rows c - 1) < char_count c ≤ glyphs_per_row * rows c.
Proof. unfold rows, glyphs_per_row. Z.div_mod_to_equations. lia. Qed.

Lemma char_count_main_range c :
  first_char c = 32 → last_char c = 126 → include_box_drawing c = true →
  char_count c = 95 + 128.
Proof.
  intros Hf Hl Hb. unfold char_count.
  rewrite length_char_list. unfold ascii_count. rewrite Hf, Hl, Hb. done.
Qed.

(** C1.  With 16 glyphs per row and each cell widened by the padding on
    both sides, the number of rows is the ceiling of the number of code
    points over 16, and each side of the atlas is, independently of the
    other, the smallest power of two that is at least the side of the grid
    (1 when that side is at most 1).  These are the sizes the saved image
    has and the header announces; the 95 + 128 code points of the command
    line make 14 rows. *)
Theorem C1_atlas_dimensions (c : config) :
  glyphs_per_row = 16
  ∧ padded_cell_width c = cell_width c + 2 * padding c
  ∧ padded_cell_height c = cell_height c + 2 * padding c
  ∧ 16 * (rows c - 1) < char_count c ≤ 16 * rows c
  ∧ smallest_power_of_two_from (16 * padded_cell_width c) (atlas_width c)
  ∧ smallest_power_of_two_from (rows c * padded_cell_height c) (atlas_height c)
  ∧ (16 * padded_cell_width c ≤ 1 → atlas_width c = 1)
  ∧ (rows c * padded_cell_height c ≤ 1 → atlas_height c = 1)
  ∧ (first_char c = 32 → last_char c = 126 → include_box_drawing c = true →
     char_count c = 223 ∧ rows c = 14)
  ∧ (∀ w path im, SaveImage path im ∈ (generate_font_atlas w c).1 →
     img_width im = atlas_width c ∧ img_height im = atlas_height c)
  ∧ (∀ w path text, WriteText path text ∈ (generate_font_atlas w c).1 →
     text = header_text c).
Proof.
  split_and!.
  - done.
  - unfold padded_cell_width. lia.
  - unfold padded_cell_height. lia.
  - apply (rows_ceiling c).
  - apply (rows_ceiling c).
  - apply next_power_of_2_smallest.
  - apply next_power_of_2_smallest.
  - apply next_power_of_2_small.
  - apply next_power_of_2_small.
  - intros Hf Hl Hb. pose proof (char_count_main_range c Hf Hl Hb) as Hn.
    split; [lia |]. unfold rows. by rewrite Hn.
  - intros w path im [[] | [(im' & [= _ <-] & ? & ? & _) | [=]]]%generate_font_atlas_writes.
    done.
  - intros w path text [[] | [(im' & [=] & _) | [= _ <-]]]%generate_font_atlas_writes.
    done.
Qed.

Example default_atlas_size :
  atlas_width default_config = 512 ∧ atlas_height default_config = 256.
Proof. by vm_compute. Qed.

(** ** The render pass, glyph by glyph *)

Lemma painted_paint_all cmds : ∀ atlas,
  painted (paint_all atlas cmds) = painted atlas ++ cmds.
Proof.
  induction cmds as [| cmd cmds IH]; intros atlas; simpl.
  - by rewrite app_nil_r.
  - unfold paint_all in IH. rewrite IH. simpl. by rewrite <- app_assoc.
Qed.

Lemma render_glyph_valid w font c atlas i code :
  char_list c !! i = Some code → valid_code code →
  render_glyph w font c atlas i =
    match draw_char w font c i code with
    | Returns cmd => ([], Returns (paint atlas cmd))
    | Raises e => ([Print (CouldNotRender code e)], Returns atlas)
    end.
Proof.
  intros Hi Hcode. unfold render_glyph, getitem. rewrite Hi. simpl.
  unfold chr. rewrite decide_True by done. simpl.
  by destruct (draw_char w font c i code).
Qed.

Lemma render_loop_valid w font c indices : ∀ atlas,
  Forall valid_code (char_list c) →
  Forall (λ i, (i < length (char_list c))%nat) indices →
  render_loop w font c atlas indices =
    (flat_map (warned w font c) indices,
     Returns (paint_all atlas (omap (drawn w font c) indices))).
Proof.
  intros atlas Hvalid. revert atlas.
  induction indices as [| i rest IH]; intros atlas Hin; [done |].
  apply Forall_cons in Hin as [Hi Hrest].
  destruct (lookup_lt_is_Some_2 _ _ Hi) as [code Hcode].
  assert (valid_code code) as Hv.
  { rewrite Forall_forall in Hvalid. apply Hvalid. by eapply list_elem_of_lookup_2. }
  simpl. rewrite (render_glyph_valid _ _ _ _ _ _ Hcode Hv).
  unfold drawn, warned. rewrite Hcode. simpl.
  destruct (draw_char w font c i code); simpl; by rewrite IH.
Qed.

Lemma valid_codes_range c :
  0 ≤ first_char c → last_char c < 0x110000 → Forall valid_code (char_list c).
Proof.
  intros Hf Hl. rewrite Forall_forall. intros code.
  rewrite char_list_elem. unfold valid_code. lia.
Qed.

(** ** C2: code points and their cells *)

(** C2.  The code points are [first_char .. last_char] in ascending order,
    then, when requested, U+2500 .. U+257F in ascending order; the glyph
    drawn in the cell of index [i] is the [i]-th code point of that
    sequence, and that cell lies in row [i div 16], column [i mod 16] of the
    padded grid.  With the range 32 .. 126 and the box-drawing block, index
    0 is code point 32, index 94 is 126 and index 95 is U+2500. *)
Theorem C2_codepoint_sequence (c : config) :
  char_list c
  = seqZ (first_char c) (last_char c + 1 - first_char c)
    ++ (if include_box_drawing c then seqZ 0x2500 128 else [])
  ∧ (∀ i : nat, first_char c + Z.of_nat i ≤ last_char c →
       char_list c !! i = Some (first_char c + Z.of_nat i))
  ∧ (include_box_drawing c = true → ∀ j : nat, (j < 128)%nat →
       char_list c !! (ascii_count c + j)%nat = Some (0x2500 + Z.of_nat j))
  ∧ (include_box_drawing c = false →
       ∀ i, (ascii_count c ≤ i)%nat → char_list c !! i = None)
  ∧ (∀ w font atlas i code, char_list c !! i = Some code → valid_code code →
       render_glyph w font c atlas i =
         match draw_char w font c i code with
         | Returns cmd => ([], Returns (paint atlas cmd))
         | Raises e => ([Print (CouldNotRender code e)], Returns atlas)
         end)
  ∧ (∀ i : nat,
       cell_x c i = (Z.of_nat i `mod` 16) * padded_cell_width c + padding c
       ∧ cell_y c i = (Z.of_nat i `div` 16) * padded_cell_height c + padding c)
  ∧ (first_char c = 32 → last_char c = 126 → include_box_drawing c = true →
       char_list c !! 0%nat = Some 32
       ∧ char_list c !! 94%nat = Some 126
       ∧ char_list c !! 95%nat = Some 0x2500).
Proof.
  split_and!.
  - done.
  - intros i Hi. apply char_list_ascii. unfold ascii_count. lia.
  - intros Hbox j Hj. by apply char_list_box.
  - intros Hbox i Hi. apply lookup_ge_None.
    rewrite length_char_list, Hbox. lia.
  - intros w font atlas i code. apply render_glyph_valid.
  - done.
  - intros Hf Hl Hbox. split_and!.
    + rewrite (char_list_ascii c 0) by (unfold ascii_count; lia). f_equal. lia.
    + rewrite (char_list_ascii c 94) by (unfold ascii_count; lia). f_equal. lia.
    + replace 95%nat with (ascii_count c + 0)%nat by (unfold ascii_count; lia).
      rewrite (char_list_box c 0 Hbox) by lia. done.
Qed.

Lemma C2_codepoint_sequence_witness :
  char_list default_config !! 0%nat = Some 32
  ∧ char_list default_config !! 94%nat = Some 126
  ∧ char_list default_config !! 95%nat = Some 0x2500.
Proof.
  destruct (C2_codepoint_sequence default_config) as (_ & _ & _ & _ & _ & _ & Hex).
  apply Hex; reflexivity.
Defined.

(** ** C3: where a glyph is drawn *)

(** C3.  A code point other than the underscore, at index [i], whose
    bounding box the font reports as (left, top, right, bottom), is drawn
    with its origin at [(cell_x + offset_x, cell_y + vertical_padding - 2)],
    where [offset_x] is the floor of half of what the cell width leaves
    over the box's width, and [vertical_padding] is the floor of half of
    what the cell height leaves over ascent plus descent: it depends on the
    configuration and the font's metrics only, so it is the same for every
    glyph of the run. *)
Theorem C3_glyph_draw_origin (w : World) (font : Font) (c : config) (atlas : image)
    (i : nat) (code bbox_left bbox_top bbox_right bbox_bottom : Z) :
  char_list c !! i = Some code →
  code ≠ 95 →
  valid_code code →
  getbbox font code = Returns (bbox_left, bbox_top, bbox_right, bbox_bottom) →
  let cellX := (Z.of_nat i `mod` 16) * (cell_width c + 2 * padding c) + padding c in
  let cellY := (Z.of_nat i `div` 16) * (cell_height c + 2 * padding c) + padding c in
  let offsetX := (cell_width c - (bbox_right - bbox_left)) `div` 2 in
  let verticalPadding :=
    (cell_height c - ((getmetrics font).1 + (getmetrics font).2)) `div` 2 in
  render_glyph w font c atlas i =
    match text_error font (cellX + offsetX) (cellY + verticalPadding - 2) code with
    | None =>
        ([], Returns (paint atlas
               (Text (cellX + offsetX) (cellY + verticalPadding - 2) code 255)))
    | Some e => ([Print (CouldNotRender code e)], Returns atlas)
    end.
Proof.
  intros Hi Hne Hvalid Hbbox. cbv zeta.
  rewrite (render_glyph_valid _ _ _ _ _ _ Hi Hvalid).
  unfold draw_char, underscore. rewrite decide_False by done. rewrite Hbbox.
  unfold cell_x, cell_y, padded_cell_x, padded_cell_y, row, col, vertical_padding,
    ascent, descent, padded_cell_width, padded_cell_height, glyphs_per_row.
  replace (padding c * 2) with (2 * padding c) by lia.
  by destruct (text_error font _ _ code).
Qed.

Lemma C3_glyph_draw_origin_witness :
  render_glyph fake_world fake_font default_config (new_image 512 256) 33
  = ([], Returns (paint (new_image 512 256) (Text 21 34 65 255))).
Proof.
  apply (C3_glyph_draw_origin fake_world fake_font default_config
           (new_image 512 256) 33 65 1 0 12 16).
  - reflexivity.
  - lia.
  - unfold valid_code. lia.
  - reflexivity.
Defined.

(** ** C4: the underscore *)

Lemma cell_x_eq c i :
  cell_x c i = (Z.of_nat i `mod` 16) * (cell_width c + 2 * padding c) + padding c.
Proof.
  unfold cell_x, padded_cell_x, col, padded_cell_width, glyphs_per_row.
  by rewrite (Z.mul_comm (padding c) 2).
Qed.

Lemma cell_y_eq c i :
  cell_y c i = (Z.of_nat i `div` 16) * (cell_height c + 2 * padding c) + padding c.
Proof.
  unfold cell_y, padded_cell_y, row, padded_cell_height, glyphs_per_row.
  by rewrite (Z.mul_comm (padding c) 2).
Qed.

Lemma draw_char_underscore w font c i :
  draw_char w font c i 95 =
    let top := cell_y c i + vertical_padding font c + ascent font - 1 in
    match rectangle_error w (cell_x c i) top (cell_x c i + cell_width c - 1) (top + 1) with
    | Some e => Raises e
    | None =>
        Returns (Rectangle (cell_x c i) top (cell_x c i + cell_width c - 1) (top + 1) 255)
    end.
Proof.
  unfold draw_char, underscore. rewrite decide_True by done. cbv zeta.
  replace (cell_y c i + vertical_padding font c + ascent font + 1 - 2)
    with (cell_y c i + vertical_padding font c + ascent font - 1) by lia.
  replace (cell_y c i + vertical_padding font c + ascent font - 1 + 2 - 1)
    with (cell_y c i + vertical_padding font c + ascent font - 1 + 1) by lia.
  done.
Qed.

(** C4.  When the range [first_char .. last_char] contains code point 95,
    its cell is filled by one call of [draw.rectangle], whatever the font:
    the box goes from [cell_x] to [cell_x + cell_width - 1], its top edge is
    at [cell_y + vertical_padding + ascent - 1], it covers exactly two rows
    of pixels and its fill is 255.  Neither [getbbox] nor [draw.text] takes part: two
    fonts with the same metrics give the same result.  In a run whose code
    points are all valid and in which Pillow accepts the rectangle, that
    rectangle is in the atlas the loop returns. *)
Theorem C4_underscore_bar (w : World) (font : Font) (c : config) (atlas : image) :
  first_char c ≤ 95 ≤ last_char c →
  let i := Z.to_nat (95 - first_char c) in
  let cellX := (Z.of_nat i `mod` 16) * (cell_width c + 2 * padding c) + padding c in
  let cellY := (Z.of_nat i `div` 16) * (cell_height c + 2 * padding c) + padding c in
  let ascent := (getmetrics font).1 in
  let descent := (getmetrics font).2 in
  let verticalPadding := (cell_height c - (ascent + descent)) `div` 2 in
  let top := cellY + verticalPadding + ascent - 1 in
  let bar := Rectangle cellX top (cellX + cell_width c - 1) (top + 1) 255 in
  char_list c !! i = Some 95
  ∧ (∀ x y, rectangle_covers cellX top (cellX + cell_width c - 1) (top + 1) x y ↔
            cellX ≤ x < cellX + cell_width c ∧ (y = top ∨ y = top + 1))
  ∧ render_glyph w font c atlas i =
      match rectangle_error w cellX top (cellX + cell_width c - 1) (top + 1) with
      | None => ([], Returns (paint atlas bar))
      | Some e => ([Print (CouldNotRender 95 e)], Returns atlas)
      end
  ∧ (∀ font', getmetrics font' = getmetrics font →
       render_glyph w font' c atlas i = render_glyph w font c atlas i)
  ∧ (Forall valid_code (char_list c) →
     rectangle_error w cellX top (cellX + cell_width c - 1) (top + 1) = None →
     ∃ t atlas',
       render_loop w font c atlas (seq 0 (length (char_list c))) = (t, Returns atlas')
       ∧ bar ∈ painted atlas').
Proof.
  intros Hrange. cbv zeta.
  set (i := Z.to_nat (95 - first_char c)).
  rewrite <- (cell_x_eq c i), <- (cell_y_eq c i).
  assert (char_list c !! i = Some 95) as Hi.
  { unfold i. rewrite char_list_ascii by (unfold ascii_count; lia). f_equal. lia. }
  assert (valid_code 95) as Hv by (unfold valid_code; lia).
  pose proof (λ f, draw_char_underscore w f c i) as Hdraw. cbv zeta in Hdraw.
  unfold vertical_padding, ascent, descent in Hdraw.
  split_and!.
  - done.
  - intros x y. unfold rectangle_covers. lia.
  - rewrite (render_glyph_valid _ _ _ _ _ _ Hi Hv), Hdraw.
    by destruct (rectangle_error w _ _ _ _).
  - intros font' Hm.
    by rewrite !(render_glyph_valid _ _ _ _ _ _ Hi Hv), !Hdraw, Hm.
  - intros Hvalid Hok. eexists _, _. split.
    + apply render_loop_valid; [done |].
      rewrite Forall_forall. intros j Hj%elem_of_seq. lia.
    + rewrite painted_paint_all, elem_of_app. right.
      rewrite list_elem_of_omap. exists i. split.
      * apply elem_of_seq. apply lookup_lt_Some in Hi. lia.
      * unfold drawn. rewrite Hi. simpl. rewrite Hdraw, Hok. done.
Qed.

Lemma C4_underscore_bar_witness :
  render_glyph fake_world fake_font default_config (new_image 512 256) 63
  = ([], Returns (paint (new_image 512 256) (Rectangle 271 67 286 68 255))).
Proof.
  destruct (C4_underscore_bar fake_world fake_font default_config (new_image 512 256))
    as (_ & _ & Hbar & _).
  - simpl. lia.
  - exact Hbar.
Defined.

(** ** C5: a glyph that cannot be drawn *)

Lemma background_paint_all cmds : ∀ atlas,
  background (paint_all atlas cmds) = background atlas.
Proof.
  induction cmds as [| cmd cmds IH]; intros atlas; [done |].
  simpl. unfold paint_all in IH. by rewrite IH.
Qed.

Lemma draw_char_local w f f' c i code :
  getmetrics f = getmetrics f' → fonts_agree_at f f' code →
  draw_char w f c i code = draw_char w f' c i code.
Proof.
  intros Hm [Hbbox Htext]. unfold draw_char, vertical_padding, ascent, descent.
  rewrite Hm, Hbbox. destruct (decide (code = underscore)); [done |].
  destruct (getbbox f' code) as [[[[? ?] ?] ?] |]; [| done].
  by rewrite Htext.
Qed.

Lemma indices_in_range (l : list Z) :
  Forall (λ i, (i < length l)%nat) (seq 0 (length l)).
Proof. rewrite Forall_forall. intros j Hj%elem_of_seq. lia. Qed.

(** What a run does once the font is loaded, its code points are valid and
    both output files can be written. *)
Lemma generate_font_atlas_completes w font c :
  truetype w (font_path c) (actual_font_size c) = Returns font →
  Forall valid_code (char_list c) →
  save_error w (output_path c) (rendered_atlas w font c) = None →
  open_error w (header_path c) = None →
  generate_font_atlas w c =
    ([Print (LoadingFont (font_path c));
      Print (CellSize (cell_width c) (cell_height c));
      Print (FontSize (actual_font_size c));
      Print (FontMetrics (ascent font) (descent font) (ascent font))]
     ++ (if include_box_drawing c then [Print (IncludingBoxDrawing 128)] else [])
     ++ [Print (AtlasSize (atlas_width c) (atlas_height c));
         Print (Rendering (char_count c))]
     ++ flat_map (warned w font c) (seq 0 (length (char_list c)))
     ++ [Print (SavingAtlas (output_path c));
         SaveImage (output_path c) (rendered_atlas w font c);
         WriteText (header_path c) (header_text c);
         Print (MetadataSaved (header_path c));
         Print Done],
     Returns true).
Proof.
  intros Hfont Hvalid Hsave Hopen.
  unfold generate_font_atlas. rewrite Hfont. unfold render_and_save.
  rewrite (render_loop_valid w font c _ _ Hvalid (indices_in_range _)).
  fold (rendered_atlas w font c).
  destruct (include_box_drawing c); simpl; rewrite Hsave; simpl; rewrite Hopen; simpl;
    by rewrite <- ?app_assoc.
Qed.

(** [main] once its arguments are read. *)
Lemma call_arguments_silent w a : (call_arguments w a).1 = [].
Proof.
  unfold call_arguments, int_arg, int_of_str, lift.
  repeat match goal with
         | |- context [args a !! ?k] => destruct (args a !! k) as [? |]; simpl
         | |- context [int w ?s] => destruct (int w s); simpl
         end; done.
Qed.

Lemma main_found w a tr c t b :
  call_arguments w a = (tr, Returns c) →
  path_exists w (font_path c) = true →
  generate_font_atlas w c = (t, Returns b) →
  main w a = (t, Returns (if b then 0 else 1)).
Proof.
  intros Hargs Hexists Hgen. pose proof (call_arguments_silent w a) as Hsilent.
  rewrite Hargs in Hsilent. simpl in Hsilent. subst tr.
  unfold main. rewrite Hargs. simpl. rewrite Hexists, Hgen. simpl.
  by rewrite app_nil_r.
Qed.

Lemma main_missing w a tr c :
  call_arguments w a = (tr, Returns c) →
  path_exists w (font_path c) = false →
  main w a = ([Print (FontNotFound (font_path c)); Print (Usage (prog a))], Returns 1).
Proof.
  intros Hargs Hexists. pose proof (call_arguments_silent w a) as Hsilent.
  rewrite Hargs in Hsilent. simpl in Hsilent. subst tr.
  unfold main. rewrite Hargs. simpl. by rewrite Hexists.
Qed.

Lemma main_bad_arguments w a tr e :
  call_arguments w a = (tr, Raises e) → main w a = ([], Raises e).
Proof.
  intros Hargs. pose proof (call_arguments_silent w a) as Hsilent.
  rewrite Hargs in Hsilent. simpl in Hsilent. subst tr.
  unfold main. by rewrite Hargs.
Qed.

Lemma cells_same c i j x y : in_cell c i x y → in_cell c j x y → i = j.
Proof.
  intros [Hxi Hyi] [Hxj Hyj]. destruct (decide (i = j)) as [| Hij]; [done | exfalso].
  assert (col i < col j ∨ col j < col i ∨ row i < row j ∨ row j < row i) as Hcases.
  { unfold row, col, glyphs_per_row. Z.div_mod_to_equations. lia. }
  unfold padded_cell_x, padded_cell_y in *.
  destruct Hcases as [H | [H | [H | H]]]; nia.
Qed.

(** With confined ink, the pixels of a cell show the cell's own call and
    nothing else. *)
Lemma inked_in_cell ink w font c j x y :
  confined ink w font c → in_cell c j x y →
  inked ink (rendered_atlas w font c) x y =
    match drawn w font c j with
    | Some cmd => ink cmd x y
    | None => false
    end.
Proof.
  intros Hconfined Hcell. unfold inked, rendered_atlas.
  rewrite painted_paint_all. simpl.
  apply eq_true_iff_eq. rewrite existsb_exists. split.
  - intros (cmd & Hin & Hink). apply list_elem_of_In, list_elem_of_omap in Hin.
    destruct Hin as (k & _ & Hk).
    assert (k = j) as -> by (eapply cells_same; [by eapply Hconfined | done]).
    by rewrite Hk.
  - destruct (drawn w font c j) as [cmd |] eqn:Hj; [| done]. intros Hink.
    exists cmd. split; [| done]. apply list_elem_of_In, list_elem_of_omap.
    exists j. split; [| done]. apply elem_of_seq.
    unfold drawn in Hj. destruct (char_list c !! j) eqn:Hlookup; [| done].
    apply lookup_lt_Some in Hlookup. lia.
Qed.

(** C5, counterexample.  With cells four pixels wide and glyphs eleven
    pixels wide, the glyph of index 95 fails and index 94 is drawn from
    x = 81: the run returns [True], and the pixel (91, 91), the top left
    corner of the failed cell, is changed by the neighbour's glyph. *)
Lemma C5_neighbour_ink_in_failed_cell :
  drawn fake_world fake_font narrow_config 95 = None
  ∧ (generate_font_atlas fake_world narrow_config).2 = Returns true
  ∧ cell_x narrow_config 95 = 91 ∧ cell_y narrow_config 95 = 91
  ∧ drawn fake_world fake_font narrow_config 94 = Some (Text 81 88 126 255)
  ∧ inked (solid_ink fake_font) (rendered_atlas fake_world fake_font narrow_config) 91 91
    = true.
Proof. split_and!; by vm_compute. Qed.

(** C5, as amended.  In a run whose font loads, whose code points are valid
    and whose two output files can be written, a glyph whose bounding box or
    drawing call raises does not stop anything: the generator returns
    [True] (and [main], called with these arguments, exits with 0), the
    failure is printed with its code point, the saved atlas holds no drawing
    call for that cell over its zero background, and holds for every other
    cell the call it would hold with any font of the same metrics that
    answers alike for that cell's code point, in particular with one that
    draws the failed glyph.  Glyphs are not clipped to their cells: it is
    when every call changes pixels of its own padded cell only that the
    failed cell stays at the background and that the pixels of a cell with
    the same call are the same. *)
Theorem C5_glyph_failure_contained (w : World) (font : Font) (c : config) :
  truetype w (font_path c) (actual_font_size c) = Returns font →
  Forall valid_code (char_list c) →
  save_error w (output_path c) (rendered_atlas w font c) = None →
  open_error w (header_path c) = None →
  ∃ t,
    generate_font_atlas w c = (t, Returns true)
    ∧ SaveImage (output_path c) (rendered_atlas w font c) ∈ t
    ∧ background (rendered_atlas w font c) = 0
    ∧ painted (rendered_atlas w font c)
      = omap (drawn w font c) (seq 0 (length (char_list c)))
    ∧ (∀ i code e,
         char_list c !! i = Some code → draw_char w font c i code = Raises e →
         Print (CouldNotRender code e) ∈ t ∧ drawn w font c i = None)
    ∧ (∀ font' j code,
         char_list c !! j = Some code →
         getmetrics font' = getmetrics font → fonts_agree_at font' font code →
         drawn w font' c j = drawn w font c j)
    ∧ (∀ a tr,
         call_arguments w a = (tr, Returns c) →
         path_exists w (font_path c) = true →
         main w a = (t, Returns 0) ∧ exit_code (main w a) = 0)
    ∧ (∀ ink i x y,
         confined ink w font c → drawn w font c i = None → in_cell c i x y →
         inked ink (rendered_atlas w font c) x y = false)
    ∧ (∀ ink font' j x y,
         confined ink w font c → confined ink w font' c →
         drawn w font' c j = drawn w font c j → in_cell c j x y →
         inked ink (rendered_atlas w font' c) x y
         = inked ink (rendered_atlas w font c) x y).
Proof.
  intros Hfont Hvalid Hsave Hopen.
  pose proof (generate_font_atlas_completes w font c Hfont Hvalid Hsave Hopen) as Hgen.
  eexists. split; [exact Hgen |]. split_and!.
  - rewrite !elem_of_app, !elem_of_cons. auto 10.
  - unfold rendered_atlas. by rewrite background_paint_all.
  - unfold rendered_atlas. by rewrite painted_paint_all.
  - intros i code e Hi Hdraw. split.
    + rewrite !elem_of_app. right. right. right. left.
      apply list_elem_of_In, in_flat_map. exists i. split.
      * apply list_elem_of_In, elem_of_seq. apply lookup_lt_Some in Hi. lia.
      * unfold warned. rewrite Hi, Hdraw. by left.
    + unfold drawn. rewrite Hi. simpl. by rewrite Hdraw.
  - intros font' j code Hj Hm Hagree. unfold drawn. rewrite Hj. simpl.
    by rewrite (draw_char_local w font' font c j code Hm Hagree).
  - intros a tr Hargs Hexists.
    pose proof (main_found w a tr c _ true Hargs Hexists Hgen) as Hmain.
    by rewrite Hmain.
  - intros ink i x y Hconfined Hnone Hcell.
    by rewrite (inked_in_cell ink w font c i x y Hconfined Hcell), Hnone.
  - intros ink font' j x y Hconfined Hconfined' Hsame Hcell.
    by rewrite (inked_in_cell ink w font c j x y Hconfined Hcell),
      (inked_in_cell ink w font' c j x y Hconfined' Hcell), Hsame.
Qed.

(** In cells of 16 by 24 the fake font's glyphs and the underscore bar stay
    in their cells. *)
Lemma tall_config_confined :
  confined (solid_ink fake_font) fake_world fake_font tall_config.
Proof.
  intros j cmd x y. unfold drawn.
  destruct (char_list tall_config !! j) as [code |]; [| done]. simpl.
  unfold draw_char, in_cell, cell_x, cell_y, vertical_padding, ascent, descent,
    padded_cell_width, padded_cell_height.
  generalize (padded_cell_x tall_config j), (padded_cell_y tall_config j).
  intros px py. simpl.
  destruct (decide (code = underscore)).
  - destruct (decide _); [done |]. intros [= <-]. simpl.
    intros ?%bool_decide_eq_true. Z.div_mod_to_equations. lia.
  - destruct (decide (code = 9472)); [done |]. simpl. intros [= <-]. simpl.
    rewrite decide_False by done. intros ?%bool_decide_eq_true.
    Z.div_mod_to_equations. lia.
Qed.

Lemma C5_glyph_failure_contained_witness :
  exit_code (main fake_world
               (Argv "generate_font_atlas.py"
                     ["font.ttf"; "font_atlas.png"; "16"; "24"; "16"])) = 0
  ∧ drawn fake_world fake_font tall_config 95 = None
  ∧ inked (solid_ink fake_font) (rendered_atlas fake_world fake_font tall_config) 280 135
    = false.
Proof.
  destruct (C5_glyph_failure_contained fake_world fake_font tall_config)
    as (t & _ & _ & _ & _ & Hfail & _ & Hmain & Hblank & _).
  - reflexivity.
  - apply valid_codes_range; simpl; lia.
  - reflexivity.
  - reflexivity.
  - split_and!.
    + by apply (Hmain _ []).
    + by apply (Hfail 95%nat 0x2500 PillowError).
    + apply (Hblank _ 95%nat); [exact tall_config_confined | reflexivity |].
      vm_compute. intuition discriminate.
Defined.

(** ** C6: exit status *)

Lemma files_after_prints t : ∀ fs, Forall is_print t → files_after fs t = fs.
Proof.
  induction t as [| e t IH]; intros fs Hp; [done |].
  apply Forall_cons in Hp as [He Ht]. destruct e; try done.
  simpl. by apply IH.
Qed.

Lemma generate_font_atlas_load_error w c e :
  truetype w (font_path c) (actual_font_size c) = Raises e →
  generate_font_atlas w c =
    ([Print (LoadingFont (font_path c));
      Print (CellSize (cell_width c) (cell_height c));
      Print (FontSize (actual_font_size c));
      Print (ErrorLoadingFont e)],
     Returns false).
Proof. intros Hfont. unfold generate_font_atlas. by rewrite Hfont. Qed.

Lemma call_arguments_raises w a tr e :
  call_arguments w a = (tr, Raises e) → e = ValueError.
Proof.
  unfold call_arguments, int_arg, int_of_str, lift.
  repeat match goal with
         | |- context [args a !! ?k] => destruct (args a !! k) as [? |]; simpl
         | |- context [int w ?s] => destruct (int w s); simpl
         end; congruence.
Qed.

(** C6, counterexample.  The font file is missing and the cell width is not
    a number: [main] raises at [int] before it looks for the font, and
    prints nothing, so no usage line. *)
Lemma C6_bad_number_no_usage :
  path_exists fake_world "missing.ttf" = false
  ∧ int fake_world "abc" = None
  ∧ main fake_world (Argv "generate_font_atlas.py" ["missing.ttf"; "out.png"; "abc"])
    = ([], Raises ValueError).
Proof. split_and!; reflexivity. Qed.

(** C6, as amended.  For a command line whose numeric arguments [int]
    accepts: when the generator returns [True] the exit status is 0; when
    the font file does not exist, [main] prints the error and the usage
    line, returns 1, and no file is created or changed; when the font exists
    but loading it raises, the generator prints the error and returns
    [False], the exit status is 1, and no file is created or changed.  For
    a command line with a numeric argument that [int] refuses, [main]
    raises [ValueError] before it looks for the font: the exit status is 1
    and no file is created or changed, but nothing is printed. *)
Theorem C6_exit_status (w : World) (a : argv) :
  (∀ tr c,
     call_arguments w a = (tr, Returns c) →
     (∀ t, path_exists w (font_path c) = true →
           generate_font_atlas w c = (t, Returns true) →
           exit_code (main w a) = 0)
     ∧ (path_exists w (font_path c) = false →
          main w a = ([Print (FontNotFound (font_path c)); Print (Usage (prog a))],
                      Returns 1)
          ∧ exit_code (main w a) = 1
          ∧ ∀ fs, files_after fs (main w a).1 = fs)
     ∧ (∀ e, path_exists w (font_path c) = true →
             truetype w (font_path c) (actual_font_size c) = Raises e →
             exit_code (main w a) = 1
             ∧ Print (ErrorLoadingFont e) ∈ (main w a).1
             ∧ ∀ fs, files_after fs (main w a).1 = fs))
  ∧ (∀ tr e,
       call_arguments w a = (tr, Raises e) →
       main w a = ([], Raises ValueError)
       ∧ exit_code (main w a) = 1
       ∧ ∀ fs, files_after fs (main w a).1 = fs).
Proof.
  split.
  - intros tr c Hargs. split_and!.
    + intros t Hexists Hgen. by rewrite (main_found w a tr c t true Hargs Hexists Hgen).
    + intros Hexists. rewrite (main_missing w a tr c Hargs Hexists).
      split_and!; [done | done |].
      intros fs. apply files_after_prints. repeat constructor.
    + intros e Hexists Hfont.
      rewrite (main_found w a tr c _ false Hargs Hexists
                 (generate_font_atlas_load_error w c e Hfont)).
      split_and!; [done | |].
      * simpl. rewrite !elem_of_cons. auto.
      * intros fs. apply files_after_prints. repeat constructor.
  - intros tr e Hargs. pose proof (call_arguments_raises w a tr e Hargs) as ->.
    by rewrite (main_bad_arguments w a tr ValueError Hargs).
Qed.

Lemma C6_exit_status_witness :
  exit_code (main fake_world (Argv "generate_font_atlas.py" ["font.ttf"; "out.png"])) = 0
  ∧ exit_code (main fake_world (Argv "generate_font_atlas.py" ["missing.ttf"; "out.png"; "8"])) = 1
  ∧ exit_code (main fake_world (Argv "generate_font_atlas.py" ["font.ttf"; "out.png"; "8"; "8"; "0"])) = 1
  ∧ exit_code (main fake_world (Argv "generate_font_atlas.py" ["missing.ttf"; "out.png"; "8x"])) = 1.
Proof.
  split_and!.
  - destruct (C6_exit_status fake_world
                (Argv "generate_font_atlas.py" ["font.ttf"; "out.png"])) as [Hread _].
    destruct (Hread [] _ eq_refl) as (Hsuccess & _ & _).
    eapply Hsuccess; reflexivity.
  - destruct (C6_exit_status fake_world
                (Argv "generate_font_atlas.py" ["missing.ttf"; "out.png"; "8"]))
      as [Hread _].
    destruct (Hread [] _ eq_refl) as (_ & Hmissing & _).
    apply Hmissing. reflexivity.
  - destruct (C6_exit_status fake_world
                (Argv "generate_font_atlas.py" ["font.ttf"; "out.png"; "8"; "8"; "0"]))
      as [Hread _].
    destruct (Hread [] _ eq_refl) as (_ & _ & Hload).
    apply (Hload OSError); reflexivity.
  - destruct (C6_exit_status fake_world
                (Argv "generate_font_atlas.py" ["missing.ttf"; "out.png"; "8x"]))
      as [_ Hrefused].
    apply (Hrefused [] ValueError). reflexivity.
Defined.

(** ** C7: degenerate cell sizes *)

(** C7, counterexample.  A cell width of 0, or a negative cell height, is
    not rejected: the run plans a 32 x 256 (a 512 x 1) atlas, saves it, and
    returns [True]. *)
Lemma C7_degenerate_cells_accepted :
  (cell_width zero_width_config = 0
   ∧ (generate_font_atlas fake_world zero_width_config).2 = Returns true
   ∧ (generate_font_atlas fake_world zero_width_config).1 !! 5%nat
     = Some (Print (AtlasSize 32 256))
   ∧ SaveImage "font_atlas.png" (rendered_atlas fake_world fake_font zero_width_config)
     ∈ (generate_font_atlas fake_world zero_width_config).1)
  ∧ (cell_height negative_height_config = -4
     ∧ (generate_font_atlas fake_world negative_height_config).2 = Returns true
     ∧ (generate_font_atlas fake_world negative_height_config).1 !! 5%nat
       = Some (Print (AtlasSize 512 1))).
Proof.
  split; [split_and! | split_and!]; try by vm_compute.
  rewrite (generate_font_atlas_completes fake_world fake_font zero_width_config);
    try reflexivity.
  - cbn [fst]. rewrite !elem_of_app, !elem_of_cons. auto 10.
  - apply valid_codes_range; simpl; lia.
Qed.

Lemma size_paint_all cmds : ∀ atlas,
  img_width (paint_all atlas cmds) = img_width atlas
  ∧ img_height (paint_all atlas cmds) = img_height atlas.
Proof.
  induction cmds as [| cmd cmds IH]; intros atlas; [done |].
  simpl. unfold paint_all in IH. by rewrite !(proj1 (IH _)), !(proj2 (IH _)).
Qed.

(** Once the font is loaded the plan is made and announced, whatever
    happens later. *)
Lemma generate_font_atlas_plans w font c :
  truetype w (font_path c) (actual_font_size c) = Returns font →
  Print (AtlasSize (atlas_width c) (atlas_height c)) ∈ (generate_font_atlas w c).1.
Proof.
  intros Hfont. unfold generate_font_atlas. rewrite Hfont. unfold render_and_save.
  destruct (render_loop _ _ _ _ _) as [t r].
  destruct (include_box_drawing c), r as [atlas | x]; simpl;
    try (destruct (save_error w (output_path c) atlas); simpl;
         destruct (open_error w (header_path c)); simpl);
    rewrite ?elem_of_cons; auto 10.
Qed.

(** C7, as amended.  A cell width or height that is zero or negative is not
    checked: once the font has loaded the run goes on to the layout, with
    the same arithmetic as for positive sizes, and when its code points are
    valid and both files can be written it saves an atlas of the planned
    size and returns [True]. *)
Theorem C7_no_geometry_validation (w : World) (font : Font) (c : config) :
  cell_width c ≤ 0 ∨ cell_height c ≤ 0 →
  truetype w (font_path c) (actual_font_size c) = Returns font →
  Print (AtlasSize (next_power_of_2 (16 * (cell_width c + 2 * padding c)))
                   (next_power_of_2 (rows c * (cell_height c + 2 * padding c))))
    ∈ (generate_font_atlas w c).1
  ∧ (Forall valid_code (char_list c) →
     save_error w (output_path c) (rendered_atlas w font c) = None →
     open_error w (header_path c) = None →
     (generate_font_atlas w c).2 = Returns true
     ∧ SaveImage (output_path c) (rendered_atlas w font c) ∈ (generate_font_atlas w c).1
     ∧ img_width (rendered_atlas w font c)
       = next_power_of_2 (16 * (cell_width c + 2 * padding c))
     ∧ img_height (rendered_atlas w font c)
       = next_power_of_2 (rows c * (cell_height c + 2 * padding c))).
Proof.
  intros _ Hfont.
  assert (atlas_width c = next_power_of_2 (16 * (cell_width c + 2 * padding c))) as Hw.
  { unfold atlas_width, padded_cell_width, glyphs_per_row. f_equal. lia. }
  assert (atlas_height c = next_power_of_2 (rows c * (cell_height c + 2 * padding c)))
    as Hh.
  { unfold atlas_height, padded_cell_height. by rewrite (Z.mul_comm (padding c) 2). }
  split.
  - rewrite <- Hw, <- Hh. by eapply generate_font_atlas_plans.
  - intros Hvalid Hsave Hopen.
    rewrite (generate_font_atlas_completes w font c Hfont Hvalid Hsave Hopen).
    split_and!.
    + done.
    + cbn [fst]. rewrite !elem_of_app, !elem_of_cons. auto 10.
    + unfold rendered_atlas. by rewrite (proj1 (size_paint_all _ _)).
    + unfold rendered_atlas. by rewrite (proj2 (size_paint_all _ _)).
Qed.

Lemma C7_no_geometry_validation_witness :
  Print (AtlasSize 32 256) ∈ (generate_font_atlas fake_world zero_width_config).1.
Proof.
  destruct (C7_no_geometry_validation fake_world fake_font zero_width_config)
    as [Hplan _].
  - left. simpl. lia.
  - reflexivity.
  - exact Hplan.
Defined.

(** ** C9: the path of the header *)

Lemma replace_absent old new s :
  occurs old s = false → str_replace old new s = s.
Proof.
  unfold str_replace. induction s as [| ch s IH]; [done |].
  simpl occurs. intros [Hhere Hlater]%orb_false_elim.
  cbn [replace_from]. rewrite Hhere. f_equal. by apply IH.
Qed.

Lemma startswith_length old s :
  startswith old s = true → (String.length old ≤ String.length s)%nat.
Proof.
  revert s. induction old as [| a old IH]; intros [| b s]; simpl; try done; try lia.
  destruct (decide (a = b)); [| done]. intros ?%IH. lia.
Qed.

Lemma length_append (s1 s2 : string) :
  String.length (s1 +:+ s2) = (String.length s1 + String.length s2)%nat.
Proof. induction s1 as [| a s1 IH]; simpl; [done | by rewrite IH]. Qed.

Lemma replace_from_length old new s : ∀ skip,
  (0 < String.length old ≤ String.length new)%nat →
  (String.length s - skip ≤ String.length (replace_from old new skip s))%nat.
Proof.
  induction s as [| ch s IH]; intros skip Hlen; [simpl; lia |].
  destruct skip as [| k].
  - cbn [replace_from]. destruct (startswith old (String ch s)) eqn:Hhere.
    + apply startswith_length in Hhere. simpl in Hhere.
      rewrite length_append. specialize (IH (Nat.pred (String.length old)) Hlen).
      simpl. lia.
    + specialize (IH 0%nat Hlen). simpl. lia.
  - specialize (IH k Hlen). simpl. lia.
Qed.

Lemma replace_present old new s :
  (0 < String.length old < String.length new)%nat →
  occurs old s = true →
  (String.length s < String.length (str_replace old new s))%nat.
Proof.
  intros Hlen. unfold str_replace. induction s as [| ch s IH].
  - simpl. rewrite orb_false_r. intros Hhere%startswith_length. simpl in Hhere. lia.
  - simpl occurs. cbn [replace_from].
    destruct (startswith old (String ch s)) eqn:Hhere; simpl.
    + intros _. apply startswith_length in Hhere. simpl in Hhere.
      pose proof (replace_from_length old new s (Nat.pred (String.length old))) as Hrest.
      rewrite length_append. lia.
    + intros Hlater%IH. lia.
Qed.

(** The header lands on the atlas exactly when the output path holds no
    ".png". *)
Lemma header_path_collides c :
  header_path c = output_path c ↔ occurs ".png" (output_path c) = false.
Proof.
  unfold header_path. split.
  - intros Heq. destruct (occurs ".png" (output_path c)) eqn:Hocc; [| done].
    apply (replace_present ".png" "_metadata.h") in Hocc; [| simpl; lia].
    rewrite Heq in Hocc. lia.
  - apply replace_absent.
Qed.

(** C9.  With the output path "font_atlas.bmp" the header path is the
    output path itself: the run saves the atlas there, then writes the
    header over it and returns [True]; what is left at that path is the
    header text, and no image.  (With "font_atlas.png" the header goes to
    "font_atlas_metadata.h".) *)
Theorem C9_header_overwrites_atlas :
  header_path bmp_config = "font_atlas.bmp"
  ∧ output_path bmp_config = "font_atlas.bmp"
  ∧ (generate_font_atlas fake_world bmp_config).2 = Returns true
  ∧ SaveImage "font_atlas.bmp" (rendered_atlas fake_world fake_font bmp_config)
    ∈ (generate_font_atlas fake_world bmp_config).1
  ∧ files_after ∅ (generate_font_atlas fake_world bmp_config).1
    = {[ "font_atlas.bmp" := TextFile (header_text bmp_config) ]}
  ∧ header_path default_config = "font_atlas_metadata.h".
Proof.
  assert (Forall valid_code (char_list bmp_config)) as Hvalid
    by (apply valid_codes_range; simpl; lia).
  pose proof (generate_font_atlas_completes fake_world fake_font bmp_config
                eq_refl Hvalid eq_refl eq_refl) as Hgen.
  split_and!.
  - reflexivity.
  - reflexivity.
  - by rewrite Hgen.
  - rewrite Hgen. cbn [fst]. rewrite !elem_of_app, !elem_of_cons. auto 10.
  - rewrite Hgen. cbn [fst]. unfold files_after.
    rewrite !foldl_app.
    assert (∀ idx fs, foldl write fs (flat_map (warned fake_world fake_font bmp_config) idx) = fs)
      as Hwarn.
    { intros idx fs. apply files_after_prints.
      rewrite Forall_forall. intros e He.
      apply list_elem_of_In, in_flat_map in He. destruct He as [i [_ Hi]].
      unfold warned in Hi. destruct (char_list bmp_config !! i); [| by destruct Hi].
      destruct (draw_char _ _ _ _ _); [by destruct Hi |]. by destruct Hi as [<- | []]. }
    rewrite Hwarn. simpl.
    change (header_path bmp_config) with "font_atlas.bmp".
    by rewrite insert_insert_eq, insert_empty.
  - reflexivity.
Qed.

(** ** C10: what the command line cannot change *)

(** C10.  Whatever the command line, the arguments [main] builds for the
    generator have [first_char = 32], [last_char = 126] and
    [include_box_drawing = True]: the code points are always 32 .. 126
    followed by U+2500 .. U+257F, 223 of them, and [main] calls the
    generator with these arguments or not at all. *)
Theorem C10_command_line_code_points (w : World) (a : argv) (tr : list effect)
    (c : config) :
  call_arguments w a = (tr, Returns c) →
  first_char c = 32 ∧ last_char c = 126 ∧ include_box_drawing c = true
  ∧ char_list c = seqZ 32 95 ++ seqZ 0x2500 128
  ∧ char_count c = 223
  ∧ main w a =
      (if path_exists w (font_path c) then
         success <- generate_font_atlas w c;
         ret (if success : bool then 0 else 1)
       else
         print (FontNotFound (font_path c));;
         print (Usage (prog a));;
         ret 1).
Proof.
  intros Hargs.
  assert (first_char c = 32 ∧ last_char c = 126 ∧ include_box_drawing c = true)
    as (Hf & Hl & Hb).
  { revert Hargs. unfold call_arguments, int_arg, int_of_str, lift.
    repeat match goal with
           | |- context [args a !! ?k] => destruct (args a !! k) as [? |]; simpl
           | |- context [int w ?s] => destruct (int w s); simpl
           end; by intros [= _ <-]. }
  split_and!; try done.
  - unfold char_list, range. by rewrite Hf, Hl, Hb.
  - by apply char_count_main_range.
  - pose proof (call_arguments_silent w a) as Hsilent.
    rewrite Hargs in Hsilent. simpl in Hsilent. subst tr.
    unfold main. rewrite Hargs. simpl.
    destruct (path_exists w (font_path c)); [| done].
    destruct (generate_font_atlas w c) as [t [b |]]; simpl; by rewrite ?app_nil_r.
Qed.

Lemma C10_command_line_code_points_witness :
  ∃ c, call_arguments fake_world
         (Argv "generate_font_atlas.py" ["font.ttf"; "out.png"; "8"; "12"; "10"; "2"])
       = ([], Returns c)
       ∧ cell_width c = 8 ∧ cell_height c = 12 ∧ font_size c = Some 10 ∧ padding c = 2
       ∧ char_count c = 223.
Proof.
  eexists. split; [reflexivity |].
  destruct (C10_command_line_code_points fake_world
              (Argv "generate_font_atlas.py" ["font.ttf"; "out.png"; "8"; "12"; "10"; "2"])
              [] _ eq_refl) as (_ & _ & _ & _ & Hcount & _).
  split_and!; [reflexivity | reflexivity | reflexivity | reflexivity | exact Hcount].
Defined.

(** * Further properties of the code *)

(** ** Grid geometry *)

Lemma row_col_of_index c i :
  (i < length (char_list c))%nat →
  0 ≤ col i < 16 ∧ 0 ≤ row i < rows c ∧ Z.of_nat i = row i * 16 + col i.
Proof.
  intros Hi. unfold row, col, rows, char_count, glyphs_per_row.
  Z.div_mod_to_equations. lia.
Qed.

(** X1.  With a padded cell that is not of negative size, the padded cell of
    every index of the loop lies inside the atlas: its column is below 16,
    its row below the number of rows, and its box stays within the
    power-of-two canvas on both axes. *)
Theorem X1_cells_inside_atlas (c : config) (i : nat) :
  (i < length (char_list c))%nat →
  0 ≤ padded_cell_width c → 0 ≤ padded_cell_height c →
  0 ≤ col i < 16 ∧ 0 ≤ row i < rows c
  ∧ Z.of_nat i = row i * 16 + col i
  ∧ 0 ≤ padded_cell_x c i
  ∧ padded_cell_x c i + padded_cell_width c ≤ atlas_width c
  ∧ 0 ≤ padded_cell_y c i
  ∧ padded_cell_y c i + padded_cell_height c ≤ atlas_height c.
Proof.
  intros Hi Hw Hh. destruct (row_col_of_index c i Hi) as (Hcol & Hrow & Hidx).
  destruct (next_power_of_2_smallest (glyphs_per_row * padded_cell_width c))
    as (_ & Hwide & _).
  destruct (next_power_of_2_smallest (rows c * padded_cell_height c))
    as (_ & Htall & _).
  fold (atlas_width c) in Hwide. fold (atlas_height c) in Htall.
  unfold padded_cell_x, padded_cell_y, glyphs_per_row in *.
  split_and!; try lia; nia.
Qed.

Lemma X1_cells_inside_atlas_witness :
  padded_cell_x default_config 222 + padded_cell_width default_config
    ≤ atlas_width default_config
  ∧ padded_cell_y default_config 222 + padded_cell_height default_config
    ≤ atlas_height default_config.
Proof.
  destruct (X1_cells_inside_atlas default_config 222)
    as (_ & _ & _ & _ & Hx & _ & Hy).
  - vm_compute. lia.
  - vm_compute. discriminate.
  - vm_compute. discriminate.
  - split; [exact Hx | exact Hy].
Defined.

(** X2.  With a padded cell of positive size, the padded cells of two
    different indices do not overlap: one lies entirely to the left of, or
    entirely above, the other. *)
Theorem X2_cells_disjoint (c : config) (i j : nat) :
  i ≠ j → 0 < padded_cell_width c → 0 < padded_cell_height c →
  padded_cell_x c i + padded_cell_width c ≤ padded_cell_x c j
  ∨ padded_cell_x c j + padded_cell_width c ≤ padded_cell_x c i
  ∨ padded_cell_y c i + padded_cell_height c ≤ padded_cell_y c j
  ∨ padded_cell_y c j + padded_cell_height c ≤ padded_cell_y c i.
Proof.
  intros Hij Hw Hh.
  assert (col i < col j ∨ col j < col i ∨ row i < row j ∨ row j < row i) as Hcases.
  { unfold row, col, glyphs_per_row. Z.div_mod_to_equations. lia. }
  unfold padded_cell_x, padded_cell_y.
  destruct Hcases as [H | [H | [H | H]]]; [left | right; left | do 2 right; left | do 3 right]; nia.
Qed.

Lemma X2_cells_disjoint_witness :
  padded_cell_x default_config 15 + padded_cell_width default_config
    ≤ padded_cell_x default_config 16
  ∨ padded_cell_x default_config 16 + padded_cell_width default_config
    ≤ padded_cell_x default_config 15
  ∨ padded_cell_y default_config 15 + padded_cell_height default_config
    ≤ padded_cell_y default_config 16
  ∨ padded_cell_y default_config 16 + padded_cell_height default_config
    ≤ padded_cell_y default_config 15.
Proof.
  apply (X2_cells_disjoint default_config 15 16); [lia | vm_compute; reflexivity ..].
Defined.

(** ** Power-of-two rounding, again *)

(** X3.  From 1 on, rounding up to a power of two less than doubles its
    argument, and it leaves a power of two as it is: a grid side that is
    already a power of two is the side of the atlas. *)
Theorem X3_rounding_is_tight (n : Z) :
  1 ≤ n →
  n ≤ next_power_of_2 n < 2 * n
  ∧ (power_of_two n → next_power_of_2 n = n).
Proof.
  intros Hn. destruct (next_power_of_2_smallest n) as (Hpow & Hge & Hleast).
  split_and!.
  - done.
  - unfold next_power_of_2 in *.
    destruct (next_power_of_2_loop_spec 1 n) as (_ & _ & [-> | Hlt]); lia.
  - intros Hn2. specialize (Hleast n Hn2). lia.
Qed.

Lemma X3_rounding_is_tight_witness :
  288 ≤ next_power_of_2 288 < 2 * 288.
Proof.
  apply (X3_rounding_is_tight 288). lia.
Defined.

(** ** The code point list *)

(** X4.  The code point list has no repeated entry exactly when the
    box-drawing block is left out, or the ASCII range is empty, or the two
    ranges do not meet; otherwise some code point owns two cells. *)
Theorem X4_code_points_distinct (c : config) :
  NoDup (char_list c) ↔
  include_box_drawing c = false
  ∨ last_char c < first_char c
  ∨ last_char c < 0x2500
  ∨ 0x257F < first_char c.
Proof.
  unfold char_list, range. rewrite NoDup_app.
  destruct (include_box_drawing c).
  - split.
    + intros (_ & Hdisjoint & _).
      destruct (decide (last_char c < first_char c)); [auto |].
      destruct (decide (last_char c < 0x2500)); [auto |].
      destruct (decide (0x257F < first_char c)); [auto |].
      exfalso. apply (Hdisjoint (Z.max (first_char c) 0x2500)).
      * apply elem_of_seqZ. lia.
      * apply elem_of_seqZ. lia.
    + intros Hcases. split_and!; [apply NoDup_seqZ | | apply NoDup_seqZ].
      intros code. rewrite !elem_of_seqZ.
      destruct Hcases as [? | [? | [? | ?]]]; [done | lia ..].
  - split; [auto |]. intros _. split_and!; [apply NoDup_seqZ | | constructor].
    intros code _. apply not_elem_of_nil.
Qed.

(** X5.  The number of code points is never negative: it is the length of
    the ASCII range, zero when [last_char] is below [first_char], plus 128
    with the box-drawing block.  With no code point at all there is no row
    and the atlas is one pixel high. *)
Theorem X5_code_point_count (c : config) :
  char_count c
  = Z.max 0 (last_char c - first_char c + 1)
    + (if include_box_drawing c then 128 else 0)
  ∧ 0 ≤ rows c
  ∧ (char_count c = 0 ↔
     include_box_drawing c = false ∧ last_char c < first_char c)
  ∧ (char_count c = 0 → rows c = 0 ∧ atlas_height c = 1).
Proof.
  assert (char_count c
          = Z.max 0 (last_char c - first_char c + 1)
            + (if include_box_drawing c then 128 else 0)) as Hcount.
  { unfold char_count. rewrite length_char_list. unfold ascii_count.
    destruct (include_box_drawing c); lia. }
  split_and!.
  - done.
  - pose proof (rows_ceiling c) as Hceil.
    unfold glyphs_per_row, char_count in Hceil. lia.
  - rewrite Hcount. destruct (include_box_drawing c); split.
    + lia.
    + intros [[=] _].
    + intros ?. split; [done | lia].
    + lia.
  - intros Hzero. assert (rows c = 0) as Hrows by (unfold rows; by rewrite Hzero).
    split; [done |]. unfold atlas_height. rewrite Hrows. by apply next_power_of_2_small.
Qed.

(** ** How a run ends *)

Lemma render_and_save_cases w font c :
  render_and_save w font c =
    match render_loop w font c (new_image (atlas_width c) (atlas_height c))
            (seq 0 (length (char_list c))) with
    | (warnings, Raises e) => (announced font c ++ warnings, Raises e)
    | (warnings, Returns atlas) =>
        match save_error w (output_path c) atlas with
        | Some e =>
            (announced font c ++ warnings ++ [Print (SavingAtlas (output_path c))], Raises e)
        | None =>
            match open_error w (header_path c) with
            | Some e =>
                (announced font c ++ warnings
                 ++ [Print (SavingAtlas (output_path c));
                     SaveImage (output_path c) atlas],
                 Raises e)
            | None =>
                (announced font c ++ warnings
                 ++ [Print (SavingAtlas (output_path c));
                     SaveImage (output_path c) atlas;
                     WriteText (header_path c) (header_text c);
                     Print (MetadataSaved (header_path c));
                     Print Done],
                 Returns true)
            end
        end
    end.
Proof.
  unfold render_and_save, announced.
  destruct (render_loop _ _ _ _ _) as [warnings [atlas | e]].
  - destruct (include_box_drawing c); simpl;
      destruct (save_error w (output_path c) atlas); simpl;
      destruct (open_error w (header_path c)); simpl;
      by rewrite <- ?app_assoc.
  - by destruct (include_box_drawing c).
Qed.

Lemma announced_prints font c : Forall is_print (announced font c).
Proof. unfold announced. destruct (include_box_drawing c); repeat constructor. Qed.

(** [generate_font_atlas] once the font is loaded. *)
Lemma generate_font_atlas_loaded w font c :
  truetype w (font_path c) (actual_font_size c) = Returns font →
  generate_font_atlas w c =
    ([Print (LoadingFont (font_path c));
      Print (CellSize (cell_width c) (cell_height c));
      Print (FontSize (actual_font_size c))]
     ++ (render_and_save w font c).1,
     (render_and_save w font c).2).
Proof.
  intros Hfont. unfold generate_font_atlas. rewrite Hfont.
  by destruct (render_and_save w font c).
Qed.

Lemma render_glyph_invalid w font c atlas i code :
  char_list c !! i = Some code → ¬ valid_code code →
  render_glyph w font c atlas i =
    ([], Raises (if decide (- 2 ^ 31 ≤ code < 2 ^ 31) then ValueError
                 else OverflowError)).
Proof.
  intros Hi Hcode. unfold render_glyph, getitem. rewrite Hi. simpl.
  unfold chr. rewrite decide_False by done. by destruct (decide _).
Qed.

(** The loop stops at the first index whose code point [chr] refuses. *)
Lemma render_loop_invalid w font c indices : ∀ atlas,
  Forall (λ i, (i < length (char_list c))%nat) indices →
  (∃ i code, i ∈ indices ∧ char_list c !! i = Some code ∧ ¬ valid_code code) →
  ∃ bad, bad ∈ char_list c ∧ ¬ valid_code bad
         ∧ (render_loop w font c atlas indices).2 =
             Raises (if decide (- 2 ^ 31 ≤ bad < 2 ^ 31) then ValueError
                     else OverflowError).
Proof.
  induction indices as [| i rest IH]; intros atlas Hin (k & bad & Hk & Hbad & Hinvalid).
  - by apply elem_of_nil in Hk.
  - apply Forall_cons in Hin as [Hi Hrest].
    destruct (lookup_lt_is_Some_2 _ _ Hi) as [code Hcode].
    simpl. destruct (decide (valid_code code)) as [Hvalid | Hvalid].
    + rewrite (render_glyph_valid _ _ _ _ _ _ Hcode Hvalid).
      assert (k ∈ rest) as Hk'.
      { apply elem_of_cons in Hk as [-> | ?]; [| done]. congruence. }
      assert (∃ i code, i ∈ rest ∧ char_list c !! i = Some code ∧ ¬ valid_code code)
        as Hlater by (by exists k, bad).
      destruct (draw_char w font c i code) as [cmd | e]; simpl.
      * destruct (IH (paint atlas cmd) Hrest Hlater) as (bad' & ? & ? & Hresult).
        exists bad'. split_and!; [done | done |].
        by destruct (render_loop w font c (paint atlas cmd) rest).
      * destruct (IH atlas Hrest Hlater) as (bad' & ? & ? & Hresult).
        exists bad'. split_and!; [done | done |].
        by destruct (render_loop w font c atlas rest).
    + exists code. split_and!; [by eapply list_elem_of_lookup_2 | done |].
      by rewrite (render_glyph_invalid _ _ _ _ _ _ Hcode Hvalid).
Qed.

(** X6.  [chr] is called outside the [try]: when the font loads and some
    code point of the list is not a Unicode code point, the run ends with
    the uncaught exception of [chr], a [ValueError], or an [OverflowError]
    when the first refused code point does not fit a C [int], having
    printed but written no file. *)
Theorem X6_invalid_code_point_aborts (w : World) (font : Font) (c : config) (code : Z) :
  truetype w (font_path c) (actual_font_size c) = Returns font →
  code ∈ char_list c → ¬ valid_code code →
  ((generate_font_atlas w c).2 = Raises ValueError
   ∨ (generate_font_atlas w c).2 = Raises OverflowError)
  ∧ (Forall (λ code, - 2 ^ 31 ≤ code < 2 ^ 31) (char_list c) →
     (generate_font_atlas w c).2 = Raises ValueError)
  ∧ Forall is_print (generate_font_atlas w c).1
  ∧ ∀ fs, files_after fs (generate_font_atlas w c).1 = fs.
Proof.
  intros Hfont Hin Hinvalid.
  apply list_elem_of_lookup in Hin as [k Hk].
  destruct (render_loop_invalid w font c (seq 0 (length (char_list c)))
              (new_image (atlas_width c) (atlas_height c)) (indices_in_range _))
    as (bad & Hbad & _ & Hloop).
  { exists k, code. split_and!; [| done | done].
    apply elem_of_seq. apply lookup_lt_Some in Hk. lia. }
  pose proof (render_loop_prints w font c (seq 0 (length (char_list c)))
                (new_image (atlas_width c) (atlas_height c))) as Hprints.
  assert (Forall is_print (generate_font_atlas w c).1
          ∧ (generate_font_atlas w c).2 =
              Raises (if decide (- 2 ^ 31 ≤ bad < 2 ^ 31) then ValueError
                      else OverflowError)) as [Htrace Hresult].
  { rewrite (generate_font_atlas_loaded w font c Hfont), render_and_save_cases.
    destruct (render_loop _ _ _ _ _) as [warnings r]. simpl in Hloop, Hprints.
    rewrite Hloop. cbn [fst snd]. split; [| done].
    apply Forall_app. split; [repeat constructor |].
    apply Forall_app. split; [apply announced_prints | done]. }
  split_and!.
  - rewrite Hresult. destruct (decide _); auto.
  - intros Hfits. rewrite Hresult, decide_True; [done |].
    rewrite Forall_forall in Hfits. by apply Hfits.
  - done.
  - intros fs. by apply files_after_prints.
Qed.

Lemma X6_invalid_code_point_aborts_witness :
  (generate_font_atlas fake_world negative_first_config).2 = Raises ValueError.
Proof.
  destruct (X6_invalid_code_point_aborts fake_world fake_font negative_first_config (-1))
    as (_ & Hresult & _).
  - reflexivity.
  - apply char_list_elem. left. simpl. lia.
  - unfold valid_code. lia.
  - apply Hresult. rewrite Forall_forall. intros code.
    rewrite char_list_elem. simpl. lia.
Defined.
Lemma render_loop_rendered w font c :
  Forall valid_code (char_list c) →
  render_loop w font c (new_image (atlas_width c) (atlas_height c))
    (seq 0 (length (char_list c)))
  = (flat_map (warned w font c) (seq 0 (length (char_list c))),
     Returns (rendered_atlas w font c)).
Proof. intros Hvalid. by apply render_loop_valid, indices_in_range. Qed.

Lemma warned_prints w font c indices :
  Forall is_print (flat_map (warned w font c) indices).
Proof.
  rewrite Forall_forall. intros e He.
  apply list_elem_of_In, in_flat_map in He. destruct He as [i [_ Hi]].
  unfold warned in Hi. destruct (char_list c !! i); [| by destruct Hi].
  destruct (draw_char _ _ _ _ _); [by destruct Hi |]. by destruct Hi as [<- | []].
Qed.

(** X7.  When [atlas.save] raises, the exception is not caught: the run
    has printed, among others, that it is saving the atlas, but it writes no
    file, and [main] ends with exit status 1. *)
Theorem X7_save_failure (w : World) (font : Font) (c : config) (e : exn) :
  truetype w (font_path c) (actual_font_size c) = Returns font →
  Forall valid_code (char_list c) →
  save_error w (output_path c) (rendered_atlas w font c) = Some e →
  (generate_font_atlas w c).2 = Raises e
  ∧ Print (SavingAtlas (output_path c)) ∈ (generate_font_atlas w c).1
  ∧ (∀ fs, files_after fs (generate_font_atlas w c).1 = fs)
  ∧ (∀ a tr, call_arguments w a = (tr, Returns c) →
             path_exists w (font_path c) = true →
             (main w a).2 = Raises e ∧ exit_code (main w a) = 1).
Proof.
  intros Hfont Hvalid Hsave.
  assert (generate_font_atlas w c =
          ([Print (LoadingFont (font_path c));
            Print (CellSize (cell_width c) (cell_height c));
            Print (FontSize (actual_font_size c))]
           ++ announced font c
           ++ flat_map (warned w font c) (seq 0 (length (char_list c)))
           ++ [Print (SavingAtlas (output_path c))],
           Raises e)) as Hgen.
  { rewrite (generate_font_atlas_loaded w font c Hfont), render_and_save_cases.
    by rewrite (render_loop_rendered w font c Hvalid), Hsave. }
  split_and!.
  - by rewrite Hgen.
  - rewrite Hgen. cbn [fst]. rewrite !elem_of_app, list_elem_of_singleton. auto.
  - intros fs. rewrite Hgen. cbn [fst]. apply files_after_prints.
    rewrite !Forall_app. split_and!;
      [repeat constructor | apply announced_prints | apply warned_prints
       | repeat constructor].
  - intros a tr Hargs Hexists.
    pose proof (call_arguments_silent w a) as Hsilent.
    rewrite Hargs in Hsilent. simpl in Hsilent. subst tr.
    unfold main, exit_code. rewrite Hargs. simpl. rewrite Hexists, Hgen. done.
Qed.

Lemma X7_save_failure_witness :
  exit_code (main read_only_world (Argv "generate_font_atlas.py" ["font.ttf"])) = 1.
Proof.
  destruct (X7_save_failure read_only_world fake_font
              {| font_path := "font.ttf";
                 output_path := "/opt/tool/font_atlas.png";
                 cell_width := 16; cell_height := 16; font_size := None;
                 first_char := 32; last_char := 126; include_box_drawing := true;
                 padding := 1 |} OSError)
    as (_ & _ & _ & Hmain).
  - reflexivity.
  - apply valid_codes_range; simpl; lia.
  - reflexivity.
  - apply (Hmain (Argv "generate_font_atlas.py" ["font.ttf"]) []); reflexivity.
Defined.

(** X8.  When the atlas has been saved and opening the header file raises,
    the exception is not caught either: the run ends with it, and what it
    leaves behind is the atlas at [output_path] without any header. *)
Theorem X8_header_failure_leaves_atlas (w : World) (font : Font) (c : config) (e : exn) :
  truetype w (font_path c) (actual_font_size c) = Returns font →
  Forall valid_code (char_list c) →
  save_error w (output_path c) (rendered_atlas w font c) = None →
  open_error w (header_path c) = Some e →
  (generate_font_atlas w c).2 = Raises e
  ∧ (∀ fs, files_after fs (generate_font_atlas w c).1
           = <[output_path c := ImageFile (rendered_atlas w font c)]> fs)
  ∧ (∀ path text, WriteText path text ∉ (generate_font_atlas w c).1).
Proof.
  intros Hfont Hvalid Hsave Hopen.
  assert (generate_font_atlas w c =
          ([Print (LoadingFont (font_path c));
            Print (CellSize (cell_width c) (cell_height c));
            Print (FontSize (actual_font_size c))]
           ++ announced font c
           ++ flat_map (warned w font c) (seq 0 (length (char_list c)))
           ++ [Print (SavingAtlas (output_path c));
               SaveImage (output_path c) (rendered_atlas w font c)],
           Raises e)) as Hgen.
  { rewrite (generate_font_atlas_loaded w font c Hfont), render_and_save_cases.
    by rewrite (render_loop_rendered w font c Hvalid), Hsave, Hopen. }
  assert (∀ l, Forall is_print l → ∀ fs, foldl write fs l = fs) as Hskip.
  { intros l Hl fs. by apply files_after_prints. }
  split_and!.
  - by rewrite Hgen.
  - intros fs. rewrite Hgen. cbn [fst]. unfold files_after. rewrite !foldl_app.
    rewrite (Hskip [_; _; _]) by repeat constructor.
    rewrite (Hskip _ (announced_prints font c)), (Hskip _ (warned_prints w font c _)).
    done.
  - intros path text. rewrite Hgen. cbn [fst]. rewrite !elem_of_app.
    pose proof (announced_prints font c) as Ha.
    pose proof (warned_prints w font c (seq 0 (length (char_list c)))) as Hw.
    rewrite Forall_forall in Ha, Hw.
    intros [Hin | [Hin%Ha | [Hin%Hw | Hin]]]; try done.
    + repeat (apply elem_of_cons in Hin as [[=] | Hin]). by apply elem_of_nil in Hin.
    + repeat (apply elem_of_cons in Hin as [[=] | Hin]). by apply elem_of_nil in Hin.
Qed.

Lemma X8_header_failure_leaves_atlas_witness :
  files_after ∅ (generate_font_atlas no_header_world default_config).1
  = {[ "font_atlas.png" := ImageFile (rendered_atlas no_header_world fake_font default_config) ]}.
Proof.
  destruct (X8_header_failure_leaves_atlas no_header_world fake_font default_config OSError)
    as (_ & Hfiles & _).
  - reflexivity.
  - apply valid_codes_range; simpl; lia.
  - reflexivity.
  - reflexivity.
  - rewrite Hfiles. apply insert_empty.
Defined.

(** X9.  After a run that returns [True], the atlas and the header are the
    last things written at their paths, and every other file is as it
    was; when the output path contains ".png" the two paths differ, so the
    image is still at [output_path]. *)
Theorem X9_files_after_a_complete_run (w : World) (font : Font) (c : config)
    (fs : gmap string file) :
  truetype w (font_path c) (actual_font_size c) = Returns font →
  Forall valid_code (char_list c) →
  save_error w (output_path c) (rendered_atlas w font c) = None →
  open_error w (header_path c) = None →
  let after := files_after fs (generate_font_atlas w c).1 in
  after !! header_path c = Some (TextFile (header_text c))
  ∧ (occurs ".png" (output_path c) = true →
     after !! output_path c = Some (ImageFile (rendered_atlas w font c)))
  ∧ (∀ path, path ≠ output_path c → path ≠ header_path c → after !! path = fs !! path).
Proof.
  intros Hfont Hvalid Hsave Hopen. cbv zeta.
  rewrite (generate_font_atlas_completes w font c Hfont Hvalid Hsave Hopen). cbn [fst].
  assert (∀ l, Forall is_print l → ∀ fs, foldl write fs l = fs) as Hskip.
  { intros l Hl fs'. by apply files_after_prints. }
  unfold files_after. rewrite !foldl_app.
  rewrite (Hskip [_; _; _; _]) by repeat constructor.
  rewrite (Hskip (if include_box_drawing c then _ else _))
    by (destruct (include_box_drawing c); repeat constructor).
  rewrite (Hskip [_; _]) by repeat constructor.
  rewrite (Hskip _ (warned_prints w font c _)). simpl.
  split_and!.
  - apply lookup_insert_eq.
  - intros Hpng. rewrite lookup_insert_ne, lookup_insert_eq; [done |].
    intros Heq. apply header_path_collides in Heq. congruence.
  - intros path Hout Hhdr. by rewrite !lookup_insert_ne.
Qed.

Lemma X9_files_after_a_complete_run_witness :
  files_after ∅ (generate_font_atlas fake_world default_config).1 !! "font_atlas.png"
  = Some (ImageFile (rendered_atlas fake_world fake_font default_config)).
Proof.
  destruct (X9_files_after_a_complete_run fake_world fake_font default_config ∅)
    as (_ & Himage & _).
  - reflexivity.
  - apply valid_codes_range; simpl; lia.
  - reflexivity.
  - reflexivity.
  - apply Himage. reflexivity.
Defined.
(** ** The header path, when the output is a ".png" *)

Lemma startswith_png_append stem :
  startswith ".png" stem = false → stem ≠ "" →
  startswith ".png" (stem +:+ ".png") = false.
Proof.
  intros Hstart Hne.
  destruct stem as [| a [| b [| d [| e rest]]]]; [done | ..]; revert Hstart; simpl;
    repeat (destruct (decide _) as [<- |]; simpl; try done).
Qed.

Lemma replace_png_suffix stem :
  occurs ".png" stem = false →
  str_replace ".png" "_metadata.h" (stem +:+ ".png") = stem +:+ "_metadata.h".
Proof.
  unfold str_replace. induction stem as [| ch stem IH]; [done |].
  simpl occurs. intros [Hhere Hlater]%orb_false_elim.
  change (String ch stem +:+ ".png") with (String ch (stem +:+ ".png")).
  cbn [replace_from].
  pose proof (startswith_png_append (String ch stem) Hhere) as Hnot.
  change (String ch stem +:+ ".png") with (String ch (stem +:+ ".png")) in Hnot.
  rewrite Hnot by done.
  change (String ch stem +:+ "_metadata.h") with (String ch (stem +:+ "_metadata.h")).
  f_equal. by apply IH.
Qed.

(** X10.  When the output path is a stem followed by ".png", and ".png"
    does not occur in the stem, the header path is the stem followed by
    "_metadata.h": it differs from the output path and lies beside it. *)
Theorem X10_header_beside_png (c : config) (stem : string) :
  output_path c = stem +:+ ".png" →
  occurs ".png" stem = false →
  header_path c = stem +:+ "_metadata.h" ∧ header_path c ≠ output_path c.
Proof.
  intros Hout Hstem.
  assert (header_path c = stem +:+ "_metadata.h") as Hhdr.
  { unfold header_path. rewrite Hout. by apply replace_png_suffix. }
  split; [done |]. rewrite Hhdr, Hout. intros Heq.
  apply (f_equal String.length) in Heq. rewrite !length_append in Heq.
  simpl in Heq. lia.
Qed.

Lemma X10_header_beside_png_witness :
  header_path default_config = "font_atlas_metadata.h".
Proof.
  apply (X10_header_beside_png default_config "font_atlas"); reflexivity.
Defined.

(** ** The command line *)

Lemma int_of_str_raises w s e : int_of_str w s = Raises e → e = ValueError.
Proof. unfold int_of_str. destruct (int w s); congruence. Qed.

(** X11.  A numeric argument that [int] refuses makes [main] raise
    [ValueError] before it prints or checks anything: whatever the
    other arguments are, also when the font file does not exist, nothing is
    printed (no usage line) and nothing is written. *)
Theorem X11_bad_number (w : World) (a : argv) (k : nat) (s : string) :
  (2 ≤ k ≤ 5)%nat → args a !! k = Some s → int w s = None →
  main w a = ([], Raises ValueError) ∧ exit_code (main w a) = 1.
Proof.
  intros Hk Hs Hint.
  assert (call_arguments w a = ([], Raises ValueError)) as Hargs.
  { unfold call_arguments, int_arg, int_of_str, lift.
    assert (k = 2 ∨ k = 3 ∨ k = 4 ∨ k = 5)%nat as [-> | [-> | [-> | ->]]] by lia;
      rewrite ?Hs, ?Hint;
      repeat match goal with
        | |- context [args a !! ?j] => destruct (args a !! j) as [? |] eqn:?; simpl
        | |- context [int w ?t] => destruct (int w t) eqn:?; simpl
        end; try done; congruence. }
  by rewrite (main_bad_arguments w a [] ValueError Hargs).
Qed.

Lemma X11_bad_number_witness :
  main fake_world (Argv "generate_font_atlas.py" ["missing.ttf"; "out.png"; "16"; "1x"])
  = ([], Raises ValueError).
Proof.
  apply (X11_bad_number fake_world
           (Argv "generate_font_atlas.py" ["missing.ttf"; "out.png"; "16"; "1x"])
           3 "1x"); [lia | reflexivity | reflexivity].
Defined.

(** X12.  When the command line stops before the cell height, [main] makes
    the cells square, loads the font at a size equal to the cell width, and
    pads by one pixel; when it stops before the cell width too, the cells
    are 16 by 16. *)
Theorem X12_square_cells_by_default (w : World) (a : argv) (tr : list effect) (c : config) :
  call_arguments w a = (tr, Returns c) →
  args a !! 3%nat = None →
  cell_height c = cell_width c
  ∧ font_size c = None
  ∧ actual_font_size c = cell_width c
  ∧ padding c = 1
  ∧ (args a !! 2%nat = None → cell_width c = 16).
Proof.
  intros Hargs Hnone.
  assert (args a !! 4%nat = None ∧ args a !! 5%nat = None) as [H4 H5].
  { apply lookup_ge_None in Hnone. split; apply lookup_ge_None; lia. }
  revert Hargs. unfold call_arguments, int_arg, int_of_str, lift, actual_font_size.
  rewrite Hnone, H4, H5.
  destruct (args a !! 2%nat) as [s |]; simpl.
  - destruct (int w s); simpl; [| done]. intros [= _ <-]. simpl. by split_and!.
  - intros [= _ <-]. by split_and!.
Qed.

Lemma X12_square_cells_by_default_witness :
  ∃ c, call_arguments fake_world (Argv "generate_font_atlas.py" ["font.ttf"; "out.png"; "24"])
       = ([], Returns c)
       ∧ cell_height c = 24 ∧ actual_font_size c = 24.
Proof.
  eexists. split; [reflexivity |].
  destruct (X12_square_cells_by_default fake_world
              (Argv "generate_font_atlas.py" ["font.ttf"; "out.png"; "24"]) [] _ eq_refl)
    as (Hheight & _ & Hsize & _).
  - reflexivity.
  - split; [exact Hheight | exact Hsize].
Defined.
(** ** What the trace tells *)

Lemma render_loop_accounts w font c indices : ∀ atlas t atlas',
  render_loop w font c atlas indices = (t, Returns atlas') →
  (length (painted atlas') + length t = length (painted atlas) + length indices)%nat
  ∧ Forall (λ e, could_not_render e = true) t.
Proof.
  induction indices as [| i rest IH]; simpl; intros atlas t atlas'.
  - intros [= <- <-]. split; [simpl; lia | done].
  - intros (t1 & mid & t2 & Hglyph & Hrest & ->)%bind_returns.
    apply IH in Hrest as [Hcount Hall].
    revert Hglyph. unfold render_glyph, getitem, lift.
    destruct (char_list c !! i) as [code |]; simpl; [| done].
    destruct (chr code) as [char |]; simpl; [| done].
    destruct (draw_char w font c i char); simpl; intros [= <- <-].
    + simpl in *. rewrite length_app in Hcount. simpl in Hcount. split; [lia | done].
    + split; [simpl; lia | by constructor].
Qed.

(** A run returns [True] only on the path on which everything returned. *)
Lemma generate_font_atlas_returns_true w c t :
  generate_font_atlas w c = (t, Returns true) →
  ∃ font warnings atlas,
    truetype w (font_path c) (actual_font_size c) = Returns font
    ∧ render_loop w font c (new_image (atlas_width c) (atlas_height c))
        (seq 0 (length (char_list c))) = (warnings, Returns atlas)
    ∧ t = [Print (LoadingFont (font_path c));
           Print (CellSize (cell_width c) (cell_height c));
           Print (FontSize (actual_font_size c))]
          ++ announced font c ++ warnings
          ++ [Print (SavingAtlas (output_path c));
              SaveImage (output_path c) atlas;
              WriteText (header_path c) (header_text c);
              Print (MetadataSaved (header_path c));
              Print Done].
Proof.
  destruct (truetype w (font_path c) (actual_font_size c)) as [font | x] eqn:Hfont.
  2: { by rewrite (generate_font_atlas_load_error w c x Hfont). }
  rewrite (generate_font_atlas_loaded w font c Hfont), render_and_save_cases.
  destruct (render_loop _ _ _ _ _) as [warnings [atlas | e]] eqn:Hloop; [| done].
  destruct (save_error w (output_path c) atlas); [done |].
  destruct (open_error w (header_path c)); [done |].
  intros [= <-]. by exists font, warnings, atlas.
Qed.

(** X13.  In a run that returns [True] every code point is accounted for
    exactly once: the number of drawing calls the saved atlas holds plus
    the number of "could not render" warnings printed is the number of code
    points. *)
Theorem X13_drawn_or_reported (w : World) (c : config) (t : list effect)
    (path : string) (im : image) :
  generate_font_atlas w c = (t, Returns true) →
  SaveImage path im ∈ t →
  Z.of_nat (length (painted im)) + Z.of_nat (length (filter could_not_render t))
  = char_count c.
Proof.
  intros (font & warnings & atlas & Hfont & Hloop & ->)%generate_font_atlas_returns_true.
  apply render_loop_accounts in Hloop as [Hcount Hall].
  rewrite length_seq in Hcount. simpl in Hcount.
  pose proof (announced_prints font c) as Ha.
  intros Hin.
  assert (im = atlas) as ->.
  { rewrite Forall_forall in Hall, Ha.
    rewrite !elem_of_app, !elem_of_cons, elem_of_nil in Hin.
    destruct_or! Hin; try discriminate; try done.
    - by apply Ha in Hin.
    - by apply Hall in Hin.
    - by injection Hin. }
  assert (filter could_not_render (announced font c) = []) as Hnone.
  { unfold announced. by destruct (include_box_drawing c). }
  assert (filter could_not_render warnings = warnings) as Hsame.
  { clear -Hall. induction Hall as [| e l He _ IH]; [done |].
    rewrite filter_cons_True by (by rewrite He). by rewrite IH. }
  rewrite !filter_app, Hnone, Hsame. simpl. rewrite app_nil_r.
  unfold char_count. lia.
Qed.

Lemma X13_drawn_or_reported_witness :
  Z.of_nat (length (painted (rendered_atlas fake_world fake_font default_config)))
  + Z.of_nat (length (filter could_not_render
                        (generate_font_atlas fake_world default_config).1))
  = 223.
Proof.
  apply (X13_drawn_or_reported fake_world default_config
           (generate_font_atlas fake_world default_config).1 "font_atlas.png").
  - reflexivity.
  - rewrite (generate_font_atlas_completes fake_world fake_font default_config);
      [| reflexivity | apply valid_codes_range; simpl; lia | reflexivity | reflexivity].
    cbn [fst]. rewrite !elem_of_app, !elem_of_cons. auto 10.
Defined.
Lemma header_not_printed l path text :
  Forall is_print l → WriteText path text ∉ l.
Proof. rewrite Forall_forall. intros Hl Hin. by apply Hl in Hin. Qed.

(** The header is the last file a run writes: a trace that holds it comes
    from a run that returned [True]. *)
Lemma generate_font_atlas_header_written w c path text :
  WriteText path text ∈ (generate_font_atlas w c).1 →
  (generate_font_atlas w c).2 = Returns true.
Proof.
  destruct (truetype w (font_path c) (actual_font_size c)) as [font | x] eqn:Hfont.
  2: { rewrite (generate_font_atlas_load_error w c x Hfont). cbn [fst].
       intros []%header_not_printed. repeat constructor. }
  rewrite (generate_font_atlas_loaded w font c Hfont), render_and_save_cases.
  pose proof (render_loop_prints w font c (seq 0 (length (char_list c)))
                (new_image (atlas_width c) (atlas_height c))) as Hprints.
  pose proof (announced_prints font c) as Ha.
  destruct (render_loop _ _ _ _ _) as [warnings [atlas | e]]; simpl in Hprints.
  - destruct (save_error w (output_path c) atlas);
      [| destruct (open_error w (header_path c)); [| done]];
      cbn [fst snd]; rewrite !elem_of_app;
      intros [Hin | [Hin | [Hin | Hin]]];
      try (by apply header_not_printed in Hin; [| repeat constructor]);
      try (by apply header_not_printed in Hin);
      repeat (apply elem_of_cons in Hin as [[=] | Hin]); by apply elem_of_nil in Hin.
  - cbn [fst snd]. rewrite !elem_of_app.
    intros [Hin | [Hin | Hin]];
      try (by apply header_not_printed in Hin; [| repeat constructor]);
      by apply header_not_printed in Hin.
Qed.

(** X14.  The exit status of [main] is 0 exactly when the run wrote the
    header, and then it had saved the atlas before: in every other case,
    a missing font, a font that does not load, an argument that is not a
    number, an exception in the render pass or while writing, the status
    is 1 and no header was written. *)
Theorem X14_exit_zero_iff_header (w : World) (a : argv) :
  (exit_code (main w a) = 0 ↔ ∃ path text, WriteText path text ∈ (main w a).1)
  ∧ (exit_code (main w a) = 0 ∨ exit_code (main w a) = 1)
  ∧ (exit_code (main w a) = 0 → ∃ path im, SaveImage path im ∈ (main w a).1).
Proof.
  pose proof (call_arguments_silent w a) as Hsilent.
  destruct (call_arguments w a) as [tr [c | e]] eqn:Hargs; simpl in Hsilent; subst tr.
  2: { rewrite (main_bad_arguments w a [] e Hargs). unfold exit_code. cbn [fst snd].
       split_and!; [split; [done |] | by right | done].
       intros (? & ? & []%elem_of_nil). }
  destruct (path_exists w (font_path c)) eqn:Hexists.
  2: { rewrite (main_missing w a [] c Hargs Hexists). unfold exit_code. cbn [fst snd].
       split_and!; [split; [done |] | by right | done].
       intros (path & text & []%header_not_printed). repeat constructor. }
  assert (main w a = ((generate_font_atlas w c).1,
                      match (generate_font_atlas w c).2 with
                      | Returns b => Returns (if b : bool then 0 else 1)
                      | Raises x => Raises x
                      end)) as Hmain.
  { unfold main. rewrite Hargs. simpl. rewrite Hexists.
    destruct (generate_font_atlas w c) as [t [b | x]]; simpl; by rewrite ?app_nil_r. }
  rewrite Hmain. unfold exit_code. cbn [fst snd].
  destruct (generate_font_atlas w c) as [t [[|] | x]] eqn:Hgen; cbn [fst snd].
  - apply generate_font_atlas_returns_true in Hgen
      as (font & warnings & atlas & _ & _ & ->).
    split_and!; [split; [intros _ | done] | by left | intros _].
    + exists (header_path c), (header_text c).
      rewrite !elem_of_app, !elem_of_cons. auto 10.
    + exists (output_path c), atlas. rewrite !elem_of_app, !elem_of_cons. auto 10.
  - split_and!; [split; [done |] | by right | done].
    intros (path & text & Hin).
    pose proof (generate_font_atlas_header_written w c path text) as Hwritten.
    rewrite Hgen in Hwritten. by specialize (Hwritten Hin).
  - split_and!; [split; [done |] | by right | done].
    intros (path & text & Hin).
    pose proof (generate_font_atlas_header_written w c path text) as Hwritten.
    rewrite Hgen in Hwritten. by specialize (Hwritten Hin).
Qed.
(** ** Horizontal centring *)

(** X15.  A glyph that is drawn through the font is centred to the pixel:
    taking its width from the bounding box, the margin left of the draw
    origin and the margin right of the glyph's span differ by at most one
    pixel, the odd pixel going to the right; when the glyph is wider than
    the cell the same holds of the two overhangs.  The call carries the
    code point itself and the fill 255. *)
Theorem X15_glyph_centred (w : World) (font : Font) (c : config) (i : nat)
    (code bbox_left bbox_top bbox_right bbox_bottom x y char fill : Z) :
  getbbox font code = Returns (bbox_left, bbox_top, bbox_right, bbox_bottom) →
  draw_char w font c i code = Returns (Text x y char fill) →
  let left_margin := x - cell_x c i in
  let right_margin := (cell_x c i + cell_width c) - (x + (bbox_right - bbox_left)) in
  0 ≤ right_margin - left_margin ≤ 1
  ∧ left_margin + (bbox_right - bbox_left) + right_margin = cell_width c
  ∧ char = code ∧ fill = 255.
Proof.
  intros Hbbox. unfold draw_char.
  destruct (decide (code = underscore)).
  { by destruct (rectangle_error w _ _ _ _). }
  rewrite Hbbox. destruct (text_error font _ _ code); [done |].
  intros [= <- <- <- <-]. cbv zeta.
  split_and!; try done; try lia.
  - Z.div_mod_to_equations. lia.
  - Z.div_mod_to_equations. lia.
Qed.

Lemma X15_glyph_centred_witness :
  0 ≤ ((cell_x default_config 33 + cell_width default_config) - (21 + (12 - 1)))
      - (21 - cell_x default_config 33) ≤ 1.
Proof.
  apply (X15_glyph_centred fake_world fake_font default_config 33 65 1 0 12 16
           21 34 65 255); reflexivity.
Defined.
